(** * ssterm: a shallow embedding of the byte-relay engine

    The development follows [ssterm.py] (version 1.8): the stream
    transformers ([format_tx_nlsub], [format_tx_hex], [format_rx_nlsub]),
    the output formatters ([format_print_raw], [format_print_hexadecimal],
    [format_print_split]), the relay loop ([read_write_loop]) and the
    start-up / shut-down code of the [__main__] block.

    A Python 2 [str] is a byte string and is modelled as a list of [ascii]
    characters.  Module-level mutable variables of the script are fields of
    an explicit state record; operating-system calls are answered by an
    explicit environment. *)

From Stdlib Require Import Ascii String NArith ZArith.
From stdpp Require Import base decidable option list gmap strings.

Local Open Scope list_scope.

(** ** Byte strings *)

Abbreviation bytes := (list ascii).

Definition B (s : string) : bytes := list_ascii_of_string s.

Definition ord (x : ascii) : N := N_of_ascii x.

(** [chr(n)] raises [ValueError] outside [range(256)]. *)
Definition chr (n : Z) : option ascii :=
  if bool_decide (0 ≤ n < 256)%Z then Some (ascii_of_N (Z.to_N n)) else None.

(** [x in s] for a one-character [x]. *)
Definition char_in (x : ascii) (s : bytes) : bool := existsb (Ascii.eqb x) s.

Definition CR : ascii := ascii_of_N 13.
Definition LF : ascii := ascii_of_N 10.

(** ** Module constants *)

Definition Hexadecimal_Columns : nat := 16.
Definition Quit_Escape_Character : N := 29.   (* 0x1D, Ctrl-] *)
Definition READ_BUFF_SIZE : nat := 4096.

Definition ESC : ascii := ascii_of_N 27.

Definition Color_Codes : list bytes :=
  [ ESC :: B "[1;30;41m"; ESC :: B "[1;30;42m"; ESC :: B "[1;30;43m";
    ESC :: B "[1;37;44m"; ESC :: B "[1;37;45m"; ESC :: B "[1;30;46m";
    ESC :: B "[1;30;47m" ].
Definition Color_Code_Reset : bytes := ESC :: B "[0m".

(** [os.linesep] on a POSIX system, the only kind of platform that
    provides the [termios] module the script imports. *)
Definition Console_Newline : bytes := [LF].

(** The newline substitution tables; [None] is Python's [None]. *)
Definition RX_Newline_Sub (k : string) : option (option bytes) :=
  if String.eqb k "raw" then Some None
  else if String.eqb k "cr" then Some (Some [CR])
  else if String.eqb k "crlf" then Some (Some [CR; LF])
  else if String.eqb k "lf" then Some (Some [LF])
  else if String.eqb k "crorlf" then Some (Some (CR :: B "|" ++ [LF]))
  else None.

Definition TX_Newline_Sub (k : string) : option (option bytes) :=
  if String.eqb k "raw" then Some None
  else if String.eqb k "cr" then Some (Some [CR])
  else if String.eqb k "crlf" then Some (Some [CR; LF])
  else if String.eqb k "lf" then Some (Some [LF])
  else if String.eqb k "none" then Some (Some [])
  else None.

(** ** The fragment of Python's built-ins the script relies on *)

Definition string_digits : bytes := B "0123456789".
Definition string_lowercase : bytes := B "abcdefghijklmnopqrstuvwxyz".
Definition string_uppercase : bytes := B "ABCDEFGHIJKLMNOPQRSTUVWXYZ".
(** [string.letters] in the "C" locale (the script never calls
    [setlocale]). *)
Definition string_letters : bytes := string_lowercase ++ string_uppercase.
Definition string_hexdigits : bytes := B "0123456789abcdefABCDEF".
Definition string_punctuation : bytes :=
  B "!" ++ [ascii_of_N 34] ++ B "#$%&'()*+,-./:;<=>?@[\]^_`{|}~".
Definition string_whitespace : bytes :=
  [ascii_of_N 9; ascii_of_N 10; ascii_of_N 11; ascii_of_N 12; ascii_of_N 13;
   ascii_of_N 32].

(** The value of a digit character in bases up to 36. *)
Definition digit_value (c : ascii) : option Z :=
  let n := Z.of_N (ord c) in
  if bool_decide (48 ≤ n ≤ 57)%Z then Some (n - 48)%Z
  else if bool_decide (97 ≤ n ≤ 122)%Z then Some (n - 87)%Z
  else if bool_decide (65 ≤ n ≤ 90)%Z then Some (n - 55)%Z
  else None.

Fixpoint int_digits (base : Z) (acc : Z) (s : bytes) : option Z :=
  match s with
  | [] => Some acc
  | c :: s' =>
      match digit_value c with
      | Some d => if bool_decide (d < base)%Z
                  then int_digits base (acc * base + d)%Z s' else None
      | None => None
      end
  end.

Fixpoint lstrip (s : bytes) : bytes :=
  match s with
  | c :: s' => if char_in c string_whitespace then lstrip s' else s
  | [] => []
  end.
Definition strip (s : bytes) : bytes := rev (lstrip (rev (lstrip s))).

(** [int(s, base)] for [base] 10 or 16: surrounding white space, an
    optional sign, for base 16 an optional [0x] prefix, then at least one
    digit.  [None] stands for [ValueError]. *)
Definition py_int (s : bytes) (base : Z) : option Z :=
  let s := strip s in
  let '(sign, s) :=
    match s with
    | c :: s' => if Ascii.eqb c "-" then ((-1)%Z, s')
                 else if Ascii.eqb c "+" then (1%Z, s') else (1%Z, s)
    | [] => (1%Z, s)
    end in
  let s :=
    match s with
    | z :: x :: s' =>
        if bool_decide (base = 16%Z) && Ascii.eqb z "0"
           && (Ascii.eqb x "x" || Ascii.eqb x "X")
        then s' else s
    | _ => s
    end in
  match s with
  | [] => None
  | _ => v ← int_digits base 0 s; Some (sign * v)%Z
  end.

(** [s.split(sep)] for a one-character separator; [cur] is the piece
    being collected. *)
Fixpoint split_char (sep : ascii) (cur : bytes) (s : bytes) : list bytes :=
  match s with
  | [] => [cur]
  | c :: s' => if Ascii.eqb c sep then cur :: split_char sep [] s'
               else split_char sep (cur ++ [c]) s'
  end.

(** [re.sub(pattern, repl, data)] for the patterns of [RX_Newline_Sub]:
    an alternation [a1|a2|...] of non-empty literals without
    metacharacters.  The alternatives are tried in order at each position;
    a match is replaced and the scan resumes behind it. *)
Definition re_alternatives (pattern : bytes) : list bytes :=
  split_char "|" [] pattern.

Fixpoint is_prefix (p s : bytes) : bool :=
  match p, s with
  | [], _ => true
  | a :: p', c :: s' => Ascii.eqb a c && is_prefix p' s'
  | _ :: _, [] => false
  end.

Fixpoint match_at (alts : list bytes) (data : bytes) : option nat :=
  match alts with
  | [] => None
  | a :: alts' =>
      if is_prefix a data then Some (length a) else match_at alts' data
  end.

Fixpoint re_sub_from (alts : list bytes) (repl : bytes) (skip : nat)
    (data : bytes) : bytes :=
  match data with
  | [] => []
  | c :: rest =>
      match skip with
      | S k => re_sub_from alts repl k rest
      | O =>
          match match_at alts data with
          | Some (S n) => repl ++ re_sub_from alts repl n rest
          | _ => c :: re_sub_from alts repl 0 rest
          end
      end
  end.

Definition re_sub (pattern repl data : bytes) : bytes :=
  re_sub_from (re_alternatives pattern) repl 0 data.

(** ** Receive and transmit newline substitutions *)

(** [format_tx_nlsub(data, sub)]: every character equal to the console
    newline is replaced by [sub]. *)
Definition format_tx_nlsub (data sub : bytes) : bytes :=
  concat (map (fun x => if bool_decide ([x] = Console_Newline) then sub
                        else [x]) data).

(** [format_tx_hex(data)], with the global [txhex_state] passed in and
    returned next to the decoded bytes.  [None] stands for an exception of
    [int] or [chr]. *)
Fixpoint format_tx_hex_loop (data txhex_state hex_data : bytes)
    : option (bytes * bytes) :=
  match data with
  | [] => Some (hex_data, txhex_state)
  | x :: data' =>
      let st := if char_in x string_hexdigits then txhex_state ++ [x] else [] in
      if bool_decide (length st = 2) then
        c ← py_int st 16 ≫= chr;
        format_tx_hex_loop data' [] (hex_data ++ [c])
      else format_tx_hex_loop data' st hex_data
  end.

Definition format_tx_hex (data txhex_state : bytes) : option (bytes * bytes) :=
  format_tx_hex_loop data txhex_state [].

(** [format_rx_nlsub(data, match)], with the global [rxnl_state] passed in
    and returned next to the substituted data.  [None] stands for the
    [IndexError] of [data[-1]] on an empty string (or of [match[0]] on an
    empty pattern). *)
Definition format_rx_nlsub (data pattern rxnl_state : bytes)
    : option (bytes * bytes) :=
  let data := rxnl_state ++ data in
  let data := re_sub pattern Console_Newline data in
  d ← last data;
  m ← head pattern;
  if Ascii.eqb d m then Some (removelast data, [d]) else Some (data, []).

(** ** Operating-system calls and module-level state *)

(** A call either returns a value or raises an exception carrying a
    message. *)
Inductive result (A : Type) : Type :=
  | Ok (a : A)
  | Raise (msg : string).
Arguments Ok {A} a.
Arguments Raise {A} msg.

Inductive fd : Type := serial_fd | stdin_fd | stdout_fd.

(** What [os.write] does with one call: it accepts some prefix of the data
    (all of it, or fewer bytes on a short write) or raises [OSError]. *)
Inductive write_outcome : Type :=
  | Accepts (n : nat)
  | WriteFails (msg : string).

(** The module-level variables mutated by the transformers and formatters,
    and the observable side of the descriptors: the bytes delivered to the
    serial port and to the console, the log of [os.write] calls, and the
    outcomes the operating system has in store for the coming [os.write]
    calls (once the script is used up every write is complete). *)
Record State : Type := mkState {
  txhex_state : bytes;
  rxnl_state : bytes;
  stdout_cursor_x : nat;
  stdout_split_bytes : bytes;
  serial_sink : bytes;
  console_sink : bytes;
  write_calls : list (fd * bytes);
  write_script : list write_outcome
}.

Definition initial_state (script : list write_outcome) : State :=
  mkState [] [] 0 [] [] [] [] script.

Definition set_txhex_state (v : bytes) (s : State) : State :=
  mkState v (rxnl_state s) (stdout_cursor_x s) (stdout_split_bytes s)
          (serial_sink s) (console_sink s) (write_calls s) (write_script s).
Definition set_rxnl_state (v : bytes) (s : State) : State :=
  mkState (txhex_state s) v (stdout_cursor_x s) (stdout_split_bytes s)
          (serial_sink s) (console_sink s) (write_calls s) (write_script s).
Definition set_stdout_cursor_x (v : nat) (s : State) : State :=
  mkState (txhex_state s) (rxnl_state s) v (stdout_split_bytes s)
          (serial_sink s) (console_sink s) (write_calls s) (write_script s).
Definition set_stdout_split_bytes (v : bytes) (s : State) : State :=
  mkState (txhex_state s) (rxnl_state s) (stdout_cursor_x s) v
          (serial_sink s) (console_sink s) (write_calls s) (write_script s).

(** The bytes [accepted] reach the device behind [f]; the call and the
    consumed outcome are recorded. *)
Definition deliver (f : fd) (data accepted : bytes)
    (script : list write_outcome) (s : State) : State :=
  mkState (txhex_state s) (rxnl_state s)
          (stdout_cursor_x s) (stdout_split_bytes s)
          (match f with
           | serial_fd => serial_sink s ++ accepted
           | _ => serial_sink s
           end)
          (match f with
           | stdout_fd => console_sink s ++ accepted
           | _ => console_sink s
           end)
          (write_calls s ++ [(f, data)]) script.

(** State-and-exception monad of the script's statements. *)
Definition M (A : Type) : Type := State -> result A * State.

Definition ret {A} (a : A) : M A := fun s => (Ok a, s).
Definition raise {A} (msg : string) : M A := fun s => (Raise msg, s).
Definition bind {A C} (m : M A) (k : A -> M C) : M C :=
  fun s => match m s with
           | (Ok a, s') => k a s'
           | (Raise msg, s') => (Raise msg, s')
           end.
(** [try: m except Exception as err: h(str(err))] *)
Definition try_except {A} (m : M A) (h : string -> M A) : M A :=
  fun s => match m s with
           | (Ok a, s') => (Ok a, s')
           | (Raise msg, s') => h msg s'
           end.
Definition get {A} (proj : State -> A) : M A := fun s => (Ok (proj s), s).
Definition modify (f : State -> State) : M unit := fun s => (Ok tt, f s).

Notation "x <- m ;; k" := (bind m (fun x => k))
  (at level 90, m at level 89, right associativity).
Notation "m ;;; k" := (bind m (fun _ => k))
  (at level 90, right associativity).

(** [for x in l: body(x)] *)
Fixpoint for_each {A} (l : list A) (body : A -> M unit) : M unit :=
  match l with
  | [] => ret tt
  | x :: l' => body x ;;; for_each l' body
  end.

Definition fd_write (f : fd) (data : bytes) : M nat := fun s =>
  match write_script s with
  | [] => (Ok (length data), deliver f data data [] s)
  | Accepts n :: script =>
      (Ok (length (take n data)), deliver f data (take n data) script s)
  | WriteFails msg :: script => (Raise msg, deliver f data [] script s)
  end.

(** ** Formatted print *)

Definition hex_digit (d : N) : ascii :=
  nth (N.to_nat d) (B "0123456789abcdef") "0"%char.

(** ["%02x" % n] for [n] below 256, the range of [ord]. *)
Definition fmt_02x (n : N) : bytes :=
  [hex_digit (n / 16); hex_digit (n mod 16)].

(** [Color_Codes[Color_Chars[ord(x)]] + token + Color_Code_Reset] when
    [ord(x)] is a key of [Color_Chars] (and, where the source tests it, the
    dictionary is not empty), [token] otherwise.  Indexing [Color_Codes]
    out of range raises [IndexError]. *)
Definition color_coded (Color_Chars : gmap N nat) (x : ascii) (token : bytes)
    : M bytes :=
  match Color_Chars !! ord x with
  | Some slot =>
      match Color_Codes !! slot with
      | Some code => ret (code ++ token ++ Color_Code_Reset)
      | None => raise "list index out of range"
      end
  | None => ret token
  end.

Definition format_print_raw (Color_Chars : gmap N nat) (data : bytes)
    : M unit :=
  if bool_decide (size Color_Chars = 0) then
    fd_write stdout_fd data ;;; ret tt
  else
    for_each data (fun x =>
      out <- color_coded Color_Chars x [x] ;;
      fd_write stdout_fd out ;;; ret tt).

Definition format_print_hexadecimal (Color_Chars : gmap N nat) (data : bytes)
    (interpret_newlines : bool) : M unit :=
  for_each data (fun x =>
    out <- color_coded Color_Chars x (fmt_02x (ord x)) ;;
    fd_write stdout_fd out ;;;
    modify (fun s => set_stdout_cursor_x (stdout_cursor_x s + 1) s) ;;;
    cursor <- get stdout_cursor_x ;;
    (if bool_decide (cursor = Hexadecimal_Columns / 2) then
       fd_write stdout_fd (B "  ") ;;; ret tt
     else if bool_decide (cursor = Hexadecimal_Columns) then
       fd_write stdout_fd [LF] ;;;
       modify (set_stdout_cursor_x 0)
     else
       fd_write stdout_fd (B " ") ;;; ret tt) ;;;
    if bool_decide ([x] = Console_Newline) && interpret_newlines then
      fd_write stdout_fd Console_Newline ;;;
      modify (set_stdout_cursor_x 0)
    else ret tt).

Definition format_print_hexadecimal_newline (Color_Chars : gmap N nat)
    (data : bytes) : M unit :=
  format_print_hexadecimal Color_Chars data true.

(** The nested [split_print(byte_list)] of [format_print_split]. *)
Definition split_print (Color_Chars : gmap N nat) (byte_list : bytes)
    : M unit :=
  (* Print the hexadecimal representation *)
  for_each (seq 0 (length byte_list)) (fun i =>
    match byte_list !! i with
    | None => raise "string index out of range"
    | Some x =>
        out <- color_coded Color_Chars x (fmt_02x (ord x)) ;;
        fd_write stdout_fd out ;;;
        if bool_decide (i + 1 = Hexadecimal_Columns / 2) then
          fd_write stdout_fd (B "  ") ;;; ret tt
        else
          fd_write stdout_fd (B " ") ;;; ret tt
    end) ;;;
  (* Fill up the rest of the hexadecimal representation with blank space *)
  (if bool_decide (length byte_list < Hexadecimal_Columns / 2) then
     fd_write stdout_fd
       (B " " ++ replicate (3 * (Hexadecimal_Columns - length byte_list))
                           " "%char) ;;;
     ret tt
   else if bool_decide (length byte_list < Hexadecimal_Columns) then
     fd_write stdout_fd
       (replicate (3 * (Hexadecimal_Columns - length byte_list)) " "%char) ;;;
     ret tt
   else ret tt) ;;;
  (* Print the ASCII representation *)
  fd_write stdout_fd (B " |") ;;;
  for_each (seq 0 (length byte_list)) (fun i =>
    match byte_list !! i with
    | None => raise "string index out of range"
    | Some x =>
        let c :=
          if char_in x (string_letters ++ string_digits
                        ++ string_punctuation ++ B " ")
          then x else "."%char in
        out <- color_coded Color_Chars x [c] ;;
        fd_write stdout_fd out ;;; ret tt
    end) ;;;
  fd_write stdout_fd (B "|") ;;; ret tt.

Definition format_print_split (Color_Chars : gmap N nat) (data : bytes)
    (partial_print : bool) : M unit :=
  (* Erase partially completed strings with \r *)
  (if partial_print then
     pending <- get stdout_split_bytes ;;
     if bool_decide (0 < length pending) then
       fd_write stdout_fd [CR] ;;; ret tt
     else ret tt
   else ret tt) ;;;
  for_each data (fun x =>
    (* Add to our split byte window *)
    modify (fun s => set_stdout_split_bytes (stdout_split_bytes s ++ [x]) s) ;;;
    window <- get stdout_split_bytes ;;
    if bool_decide (length window = Hexadecimal_Columns) then
      split_print Color_Chars window ;;;
      fd_write stdout_fd Console_Newline ;;;
      modify (set_stdout_split_bytes [])
    else ret tt) ;;;
  (* Print partially completed strings *)
  if partial_print then
    window <- get stdout_split_bytes ;;
    if bool_decide (0 < length window) then split_print Color_Chars window
    else ret tt
  else ret tt.

Definition format_print_split_full_lines (Color_Chars : gmap N nat)
    (data : bytes) : M unit :=
  format_print_split Color_Chars data false.

(** ** Options *)

Record TTY_Options_t : Type := mkTTY {
  baudrate : Z;
  databits : Z;
  stopbits : Z;
  parity : string;
  flow_control : string
}.

Record Format_Options_t : Type := mkFormat {
  output_mode : string;
  input_mode : string;
  transmit_newline : string;
  receive_newline : string;
  echo : bool
}.

(** The option containers of the script: [TTY_Options], [Format_Options]
    and the dictionary [Color_Chars] from character code to color slot. *)
Record Options : Type := mkOptions {
  TTY_Options : TTY_Options_t;
  Format_Options : Format_Options_t;
  Color_Chars : gmap N nat
}.

Definition default_options : Options :=
  mkOptions (mkTTY 115200 8 1 "none" "none")
            (mkFormat "raw" "raw" "raw" "raw" false)
            ∅.

(** ** Main read/write loop *)

Definition nl : string := String LF EmptyString.

(** The dictionary of formatters indexed by output mode. *)
Definition format_print_table (mode : string)
    : option (gmap N nat -> bytes -> M unit) :=
  if String.eqb mode "raw" then Some format_print_raw
  else if String.eqb mode "split" then
    Some (fun cc data => format_print_split cc data true)
  else if String.eqb mode "splitfull" then Some format_print_split_full_lines
  else if String.eqb mode "hex" then
    Some (fun cc data => format_print_hexadecimal cc data false)
  else if String.eqb mode "hexnl" then Some format_print_hexadecimal_newline
  else None.

(** One return of [select.select]: for each of the two descriptors,
    whether it is in the ready list and, if so, what [os.read] on it then
    yields (the bytes read, empty at end of file, or an exception). *)
Record select_event : Type := mkEvent {
  stdin_ready : option (result bytes);
  serial_ready : option (result bytes)
}.

(** How the loop is left: by [break] (the function returns), or not at
    all because it waits in [select] for an event that is not in the
    script.  A raised exception is the [Raise] of the monad. *)
Inductive loop_exit : Type := Returned | Waiting.

Definition fd_read (r : result bytes) : M bytes :=
  match r with
  | Ok buff => ret buff
  | Raise msg => raise msg
  end.

Definition run_format_tx_hex (buff : bytes) : M bytes :=
  st <- get txhex_state ;;
  match format_tx_hex buff st with
  | Some (hex_data, st') => modify (set_txhex_state st') ;;; ret hex_data
  | None => raise "invalid literal for int() with base 16"
  end.

Definition run_format_rx_nlsub (buff pattern : bytes) : M bytes :=
  st <- get rxnl_state ;;
  match format_rx_nlsub buff pattern st with
  | Some (data, st') => modify (set_rxnl_state st') ;;; ret data
  | None => raise "string index out of range"
  end.

(** The [if stdin_fd in ready_read_fds:] block; the result says whether
    the loop is left by [break]. *)
Definition stdin_block (txnl_sub : option bytes) (input_mode : string)
    (r : result bytes) : M bool :=
  buff <- try_except (fd_read r)
            (fun err => raise ("Error reading stdin: " ++ err ++ nl)%string) ;;
  if bool_decide (0 < length buff) then
    if char_in (ascii_of_N Quit_Escape_Character) buff then ret true
    else
      let buff := match txnl_sub with
                  | Some sub => format_tx_nlsub buff sub
                  | None => buff
                  end in
      buff <- (if String.eqb input_mode "hex" then run_format_tx_hex buff
               else ret buff) ;;
      try_except (fd_write serial_fd buff)
        (fun err =>
           raise ("Error writing to serial port: " ++ err ++ nl)%string) ;;;
      ret false
  else ret false.

(** The [if serial_fd in ready_read_fds:] block. *)
Definition serial_block (rxnl_sub : option bytes)
    (format_print : bytes -> M unit) (r : result bytes) : M unit :=
  buff <- try_except (fd_read r)
            (fun err =>
               raise ("Error reading serial port: " ++ err ++ nl)%string) ;;
  if bool_decide (0 < length buff) then
    buff <- match rxnl_sub with
            | Some pattern => run_format_rx_nlsub buff pattern
            | None => ret buff
            end ;;
    try_except (format_print buff)
      (fun err => raise ("Error writing to stdout: " ++ err ++ nl)%string)
  else ret tt.

Fixpoint relay (txnl_sub rxnl_sub : option bytes) (input_mode : string)
    (format_print : bytes -> M unit) (events : list select_event)
    : M loop_exit :=
  match events with
  | [] => ret Waiting
  | ev :: events' =>
      quit <- match stdin_ready ev with
              | Some r => stdin_block txnl_sub input_mode r
              | None => ret false
              end ;;
      if (quit : bool) then ret Returned
      else
        match serial_ready ev with
        | Some r => serial_block rxnl_sub format_print r
        | None => ret tt
        end ;;;
        relay txnl_sub rxnl_sub input_mode format_print events'
  end.

(** [read_write_loop(serial_fd, stdin_fd, stdout_fd)] run against a script
    of [select] returns. *)
Definition read_write_loop (opts : Options) (events : list select_event)
    : M loop_exit :=
  match TX_Newline_Sub (transmit_newline (Format_Options opts)),
        RX_Newline_Sub (receive_newline (Format_Options opts)),
        format_print_table (output_mode (Format_Options opts)) with
  | Some txnl_sub, Some rxnl_sub, Some format_print =>
      relay txnl_sub rxnl_sub (input_mode (Format_Options opts))
            (format_print (Color_Chars opts)) events
  | _, _, _ => raise "KeyError"
  end.

(** ** Command-line options and the [__main__] block *)

(** What the process does to the outside world, in order. *)
Inductive action : Type :=
  | StderrWrite (msg : string)
  | Print (line : string)
  | PrintUsage
  | PrintVersion
  | SerialOpen (device : string) (tty : TTY_Options_t)
  | StdinRawOpen (echo : bool)
  | StdoutRawOpen
  | RelayLoop (final : State)
  | StdinReset
  | SerialClose.

(** Option processing either goes on with updated containers or ends the
    process through [sys.exit] after some output. *)
Inductive step_result : Type :=
  | Continue (opts : Options)
  | Exit (trace : list action) (code : Z).

Definition set_tty (f : TTY_Options_t -> TTY_Options_t) (o : Options)
    : Options :=
  mkOptions (f (TTY_Options o)) (Format_Options o) (Color_Chars o).
Definition set_format (f : Format_Options_t -> Format_Options_t) (o : Options)
    : Options :=
  mkOptions (TTY_Options o) (f (Format_Options o)) (Color_Chars o).
Definition set_color_chars (cc : gmap N nat) (o : Options) : Options :=
  mkOptions (TTY_Options o) (Format_Options o) cc.

Definition S_ (s : bytes) : string := string_of_list_ascii s.

(** The body of [for c in opt_arg:] in the [-c] branch, folded over the
    list: the dictionary so far, or the exit. *)
Fixpoint color_loop (items : list bytes) (cc : gmap N nat)
    : gmap N nat + list action * Z :=
  match items with
  | [] => inl cc
  | c :: items' =>
      (* ASCII character *)
      if bool_decide (length c = 1) then
        match c with
        | x :: _ => color_loop items' (<[ord x := size cc]> cc)
        | [] => inl cc
        end
      (* Hexadecimal number *)
      else if bool_decide (2 < length c) && bool_decide (take 2 c = B "0x") then
        match py_int c 16 with
        | None =>
            inr ([StderrWrite ("Error: Unknown color code character: "
                               ++ S_ c ++ nl)%string], (-1)%Z)
        | Some c_int => color_loop items' (<[Z.to_N c_int := size cc]> cc)
        end
      (* Unknown *)
      else
        inr ([StderrWrite ("Error: Unknown color code character: "
                           ++ S_ c ++ nl)%string], (-1)%Z)
  end.

(** The [-c], [--color] branch. *)
Definition color_option (opt_arg : string) (o : Options) : step_result :=
  let opt_arg :=
    filter (fun x => 1 ≤ length x) (split_char "," [] (B opt_arg)) in
  if bool_decide (length Color_Codes < length opt_arg) then
    Exit [StderrWrite
            ("Error: Maximum color code characters (7) exceeded!" ++ nl)%string]
         (-1)
  else
    match color_loop opt_arg (Color_Chars o) with
    | inl cc => Continue (set_color_chars cc o)
    | inr (trace, code) => Exit trace code
    end.

Definition is_opt (opt_c short long : string) : bool :=
  String.eqb opt_c short || String.eqb opt_c long.

Definition int_option (opt_arg : string) (errmsg : string)
    (store : Z -> Options -> Options) (o : Options) : step_result :=
  match py_int (B opt_arg) 10 with
  | Some v => Continue (store v o)
  | None => Exit [StderrWrite (errmsg ++ nl)%string] (-1)
  end.

Definition choice_option (opt_arg : string) (valid : bool) (errmsg : string)
    (store : Options -> Options) (o : Options) : step_result :=
  if valid then Continue (store o)
  else Exit [StderrWrite (errmsg ++ nl)%string; PrintUsage] (-1).

Definition one_of (x : string) (l : list string) : bool :=
  existsb (String.eqb x) l.

Definition set_baudrate (v : Z) : Options -> Options :=
  set_tty (fun t => mkTTY v (databits t) (stopbits t) (parity t) (flow_control t)).
Definition set_databits (v : Z) : Options -> Options :=
  set_tty (fun t => mkTTY (baudrate t) v (stopbits t) (parity t) (flow_control t)).
Definition set_stopbits (v : Z) : Options -> Options :=
  set_tty (fun t => mkTTY (baudrate t) (databits t) v (parity t) (flow_control t)).
Definition set_parity (v : string) : Options -> Options :=
  set_tty (fun t => mkTTY (baudrate t) (databits t) (stopbits t) v (flow_control t)).
Definition set_flow_control (v : string) : Options -> Options :=
  set_tty (fun t => mkTTY (baudrate t) (databits t) (stopbits t) (parity t) v).
Definition set_output_mode (v : string) : Options -> Options :=
  set_format (fun f => mkFormat v (input_mode f) (transmit_newline f)
                                (receive_newline f) (echo f)).
Definition set_input_mode (v : string) : Options -> Options :=
  set_format (fun f => mkFormat (output_mode f) v (transmit_newline f)
                                (receive_newline f) (echo f)).
Definition set_transmit_newline (v : string) : Options -> Options :=
  set_format (fun f => mkFormat (output_mode f) (input_mode f) v
                                (receive_newline f) (echo f)).
Definition set_receive_newline (v : string) : Options -> Options :=
  set_format (fun f => mkFormat (output_mode f) (input_mode f)
                                (transmit_newline f) v (echo f)).
Definition set_echo (v : bool) : Options -> Options :=
  set_format (fun f => mkFormat (output_mode f) (input_mode f)
                                (transmit_newline f) (receive_newline f) v).

(** The body of [for opt_c, opt_arg in options:]. *)
Definition process_option (opt_c opt_arg : string) (o : Options)
    : step_result :=
  (* Serial port options *)
  if is_opt opt_c "-b" "--baudrate" then
    int_option opt_arg "Error: Invalid tty baudrate!" set_baudrate o
  else if is_opt opt_c "-d" "--databits" then
    int_option opt_arg "Error: Invalid tty data bits!" set_databits o
  else if is_opt opt_c "-p" "--parity" then
    Continue (set_parity opt_arg o)
  else if is_opt opt_c "-t" "--stopbits" then
    int_option opt_arg "Error: Invalid tty stop bits!" set_stopbits o
  else if is_opt opt_c "-f" "--flow-control" then
    Continue (set_flow_control opt_arg o)
  (* Output Formatting Options *)
  else if is_opt opt_c "-o" "--output" then
    choice_option opt_arg
      (one_of opt_arg ["raw"; "split"; "splitfull"; "hex"; "hexnl"])
      "Error: Invalid output mode!" (set_output_mode opt_arg) o
  else if String.eqb opt_c "--tx-nl" then
    choice_option opt_arg (bool_decide (is_Some (TX_Newline_Sub opt_arg)))
      "Error: Invalid tx newline type!" (set_transmit_newline opt_arg) o
  else if is_opt opt_c "-c" "--color" then color_option opt_arg o
  (* Input Formatting Options *)
  else if is_opt opt_c "-i" "--input" then
    choice_option opt_arg (one_of opt_arg ["raw"; "hex"])
      "Error: Invalid input mode!" (set_input_mode opt_arg) o
  else if String.eqb opt_c "--rx-nl" then
    choice_option opt_arg (bool_decide (is_Some (RX_Newline_Sub opt_arg)))
      "Error: Invalid rx newline type!" (set_receive_newline opt_arg) o
  else if is_opt opt_c "-e" "--echo" then
    Continue (set_echo true o)
  (* Miscellaneous Options *)
  else if is_opt opt_c "-h" "--help" then Exit [PrintUsage] 0
  else if is_opt opt_c "-v" "--version" then Exit [PrintVersion] 0
  else Continue o.

Fixpoint process_options (options : list (string * string)) (o : Options)
    : step_result :=
  match options with
  | [] => Continue o
  | (opt_c, opt_arg) :: options' =>
      match process_option opt_c opt_arg o with
      | Continue o' => process_options options' o'
      | Exit trace code => Exit trace code
      end
  end.

(** The answers of the environment to the calls of the [__main__] block:
    the result of [getopt.gnu_getopt] (option pairs and remaining
    arguments), the outcomes of opening and configuring the descriptors,
    the [select] and [os.write] scripts of the session, and the outcomes
    of resetting the console and closing the serial port. *)
Record Env : Type := mkEnv {
  getopt : result (list (string * string) * list string);
  serial_open : result unit;
  stdin_raw_open : result unit;
  stdout_raw_open : result unit;
  select_script : list select_event;
  os_write_script : list write_outcome;
  stdin_reset : result unit;
  serial_close : result unit
}.

(** The statements of [__main__] behind the relay loop, for each way the
    loop can end.  The result is the trace and the exit status; no status
    means that the process is still running. *)
Definition after_loop (env : Env) (r : result loop_exit)
    : list action * option Z :=
  match r with
  | Raise err => ([StderrWrite (err ++ nl)%string], Some (-1)%Z)
  | Ok Waiting => ([], None)
  | Ok Returned =>
      match stdin_reset env with
      | Raise err =>
          ([Print ""; StdinReset;
            StderrWrite
              ("Error resetting stdin to buffered mode: " ++ err ++ nl)%string],
           Some (-1)%Z)
      | Ok _ =>
          match serial_close env with
          | Raise err =>
              ([Print ""; StdinReset; SerialClose;
                StderrWrite
                  ("Error closing serial port: " ++ err ++ nl)%string],
               Some (-1)%Z)
          | Ok _ => ([Print ""; StdinReset; SerialClose], Some 0%Z)
          end
      end
  end.

(** The statements of [__main__] from opening the serial port on. *)
Definition session (env : Env) (o : Options) (device : string)
    : list action * option Z :=
  let t1 := [SerialOpen device (TTY_Options o)] in
  match serial_open env with
  | Raise err =>
      (t1 ++ [StderrWrite ("Error opening serial port: " ++ err ++ nl)%string],
       Some (-1)%Z)
  | Ok _ =>
      let t2 := t1 ++ [StdinRawOpen (echo (Format_Options o))] in
      match stdin_raw_open env with
      | Raise err =>
          (t2 ++ [StderrWrite
                    ("Error opening stdin in raw mode: " ++ err ++ nl)%string],
           Some (-1)%Z)
      | Ok _ =>
          let t3 := t2 ++ [StdoutRawOpen] in
          match stdout_raw_open env with
          | Raise err =>
              (t3 ++ [StderrWrite
                        ("Error opening stdout in raw mode: " ++ err ++ nl)%string],
               Some (-1)%Z)
          | Ok _ =>
              let '(r, final) :=
                read_write_loop o (select_script env)
                  (initial_state (os_write_script env)) in
              let '(t4, status) := after_loop env r in
              (t3 ++ [RelayLoop final] ++ t4, status)
          end
      end
  end.

(** The [__main__] block. *)
Definition main (env : Env) : list action * option Z :=
  match getopt env with
  | Raise err => ([Print (err ++ " " ++ nl)%string; PrintUsage], Some (-1)%Z)
  | Ok (options, args) =>
      match process_options options default_options with
      | Exit trace code => (trace, Some code)
      | Continue o =>
          (* Make sure a serial port device is specified *)
          match args with
          | [] => ([PrintUsage], Some (-1)%Z)
          | device :: _ => session env o device
          end
      end
  end.

(** ** Terminal attributes: [serial_open], [stdin_raw_open], [stdin_reset] *)

Module Tty.

(** The constants the script reads from Python's [termios] module.  Their
    values belong to the platform, so the embedding takes them as a
    parameter. *)
Record termios_module : Type := mkTermios {
  CREAD : Z; CLOCAL : Z;
  B50 : Z; B75 : Z; B110 : Z; B134 : Z; B150 : Z; B200 : Z; B300 : Z;
  B600 : Z; B1200 : Z; B1800 : Z; B2400 : Z; B4800 : Z; B9600 : Z;
  B19200 : Z; B38400 : Z; B57600 : Z; B115200 : Z; B230400 : Z;
  CS5 : Z; CS6 : Z; CS7 : Z; CS8 : Z;
  PARENB : Z; PARODD : Z; CSTOPB : Z; CRTSCTS : Z;
  IGNBRK : Z; INPCK : Z; ISTRIP : Z; IXON : Z; IXOFF : Z; IXANY : Z;
  ICANON : Z; ECHO : Z; ECHOE : Z; ISIG : Z
}.

(** The list [[iflag, oflag, cflag, lflag, ispeed, ospeed, cc]] of
    [termios.tcgetattr].  Python integers are unbounded, so the flag words
    are in [Z] and [&], [|], [~] are [Z.land], [Z.lor], [Z.lnot].  The
    script never looks into [cc]. *)
Record attributes : Type := mkAttr {
  iflag : Z;
  oflag : Z;
  cflag : Z;
  lflag : Z;
  ispeed : Z;
  ospeed : Z;
  cc : list Z
}.

Definition set_iflag (v : Z) (a : attributes) : attributes :=
  mkAttr v (oflag a) (cflag a) (lflag a) (ispeed a) (ospeed a) (cc a).
Definition set_oflag (v : Z) (a : attributes) : attributes :=
  mkAttr (iflag a) v (cflag a) (lflag a) (ispeed a) (ospeed a) (cc a).
Definition set_cflag (v : Z) (a : attributes) : attributes :=
  mkAttr (iflag a) (oflag a) v (lflag a) (ispeed a) (ospeed a) (cc a).
Definition set_lflag (v : Z) (a : attributes) : attributes :=
  mkAttr (iflag a) (oflag a) (cflag a) v (ispeed a) (ospeed a) (cc a).
Definition set_ispeed (v : Z) (a : attributes) : attributes :=
  mkAttr (iflag a) (oflag a) (cflag a) (lflag a) v (ospeed a) (cc a).
Definition set_ospeed (v : Z) (a : attributes) : attributes :=
  mkAttr (iflag a) (oflag a) (cflag a) (lflag a) (ispeed a) v (cc a).

(** A terminal device as the script sees it: the descriptor [os.open]
    returns for it, its current attributes, and the outcomes of the system
    calls still to come, an error text for a call that raises.  Calls
    behind the end of the script succeed. *)
Record terminal : Type := mkTerminal {
  tty_fd : Z;
  tty_attr : attributes;
  sys_script : list (option string)
}.

Definition syscall {A : Type} (effect : terminal -> A * terminal)
    (t : terminal) : result A * terminal :=
  match sys_script t with
  | Some err :: script => (Raise err, mkTerminal (tty_fd t) (tty_attr t) script)
  | None :: script =>
      let '(a, t') := effect (mkTerminal (tty_fd t) (tty_attr t) script) in
      (Ok a, t')
  | [] => let '(a, t') := effect t in (Ok a, t')
  end.

Definition os_open (device_path : string) : terminal -> result Z * terminal :=
  syscall (fun t => (tty_fd t, t)).
Definition tcgetattr : terminal -> result attributes * terminal :=
  syscall (fun t => (tty_attr t, t)).
(** Whether the system takes the attributes, the speeds among them, is
    for the script to say; a failing [tcsetattr] is taken to change
    nothing. *)
Definition tcsetattr (a : attributes) : terminal -> result unit * terminal :=
  syscall (fun t => (tt, mkTerminal (tty_fd t) a (sys_script t))).

Definition and_then {A B : Type} (r : result A) (k : A -> result B)
    : result B :=
  match r with
  | Ok a => k a
  | Raise msg => Raise msg
  end.

Section Termios.

Variable termios : termios_module.

Definition termios_baudrates : gmap Z Z :=
  list_to_map
    [ (50, B50 termios); (75, B75 termios); (110, B110 termios);
      (134, B134 termios); (150, B150 termios); (200, B200 termios);
      (300, B300 termios); (600, B600 termios); (1200, B1200 termios);
      (1800, B1800 termios); (2400, B2400 termios); (4800, B4800 termios);
      (9600, B9600 termios); (19200, B19200 termios);
      (38400, B38400 termios); (57600, B57600 termios);
      (115200, B115200 termios); (230400, B230400 termios);
      (* Linux baudrates bits missing in termios module included below *)
      (460800, 0x1004); (500000, 0x1005); (576000, 0x1006);
      (921600, 0x1007); (1000000, 0x1008); (1152000, 0x1009);
      (1500000, 0x100A); (2000000, 0x100B); (2500000, 0x100C);
      (3000000, 0x100D); (3500000, 0x100E); (4000000, 0x100F) ]%Z.

Definition termios_databits : gmap Z Z :=
  list_to_map
    [ (5, CS5 termios); (6, CS6 termios); (7, CS7 termios);
      (8, CS8 termios) ]%Z.

Definition termios_parity : gmap string Z :=
  list_to_map
    [ ("none", 0%Z); ("even", PARENB termios);
      ("odd", Z.lor (PARENB termios) (PARODD termios)) ].

Definition termios_stopbits : gmap Z Z :=
  list_to_map [ (1, 0); (2, CSTOPB termios) ]%Z.

Definition termios_flowcontrol : gmap string Z :=
  list_to_map [ ("none", 0%Z); ("rtscts", CRTSCTS termios); ("xonxoff", 0%Z) ].

(** The nested [termios_cflag_map_and_set]; [tty_attr] is the list of the
    enclosing call, which it updates in place. *)
Definition termios_cflag_map_and_set `{Countable K}
    (termios_options : gmap K Z) (option : K) (errmsg : string)
    (tty_attr : attributes) : result attributes :=
  match termios_options !! option with
  | None => Raise errmsg
  | Some bits => Ok (set_cflag (Z.lor (cflag tty_attr) bits) tty_attr)
  end.

(** The statements of [serial_open] between [tcgetattr] and [tcsetattr]. *)
Definition serial_open_attributes (baudrate databits stopbits : Z)
    (parity flow_control : string) (tty_attr : attributes)
    : result attributes :=
  (* Reset cflag: Enable receiver, ignore modem control lines *)
  let tty_attr := set_cflag (Z.lor (CREAD termios) (CLOCAL termios)) tty_attr in
  let tty_attr :=
    match termios_baudrates !! baudrate with
    | Some b =>
        let tty_attr := set_cflag (Z.lor (cflag tty_attr) b) tty_attr in
        let tty_attr := set_ispeed b tty_attr in
        set_ospeed b tty_attr
    | None =>
        (* Set alternate speed via BOTHER (=0x1000) cflag *)
        let tty_attr := set_cflag (Z.lor (cflag tty_attr) 0x1000) tty_attr in
        let tty_attr := set_ispeed baudrate tty_attr in
        set_ospeed baudrate tty_attr
    end in
  and_then (termios_cflag_map_and_set termios_databits databits
              "Invalid tty databits!" tty_attr) (fun tty_attr =>
  and_then (termios_cflag_map_and_set termios_parity parity
              "Invalid tty parity!" tty_attr) (fun tty_attr =>
  and_then (termios_cflag_map_and_set termios_stopbits stopbits
              "Invalid tty stop bits!" tty_attr) (fun tty_attr =>
  and_then (termios_cflag_map_and_set termios_flowcontrol flow_control
              "Invalid tty flow control!" tty_attr) (fun tty_attr =>
  let tty_attr := set_lflag 0 tty_attr in
  let tty_attr := set_oflag 0 tty_attr in
  (* Ignore break characters *)
  let tty_attr := set_iflag (IGNBRK termios) tty_attr in
  (* Enable parity checking if we are using parity *)
  let tty_attr :=
    if negb (String.eqb parity "none") then
      set_iflag (Z.lor (iflag tty_attr)
                   (Z.lor (INPCK termios) (ISTRIP termios))) tty_attr
    else tty_attr in
  (* Enable XON/XOFF if we are using software flow control *)
  let tty_attr :=
    if String.eqb flow_control "xonxoff" then
      set_iflag (Z.lor (iflag tty_attr)
                   (Z.lor (Z.lor (IXON termios) (IXOFF termios))
                      (IXANY termios))) tty_attr
    else tty_attr in
  Ok tty_attr)))).

(** [serial_open]; the terminal is the device behind [device_path].  The
    exceptions of the validation are [ValueError]s, the others
    [Exception]s; the caller catches both alike. *)
Definition serial_open (device_path : string) (baudrate databits stopbits : Z)
    (parity flow_control : string) (t : terminal) : result Z * terminal :=
  match os_open device_path t with
  | (Raise err, t) => (Raise err, t)
  | (Ok fd, t) =>
      match tcgetattr t with
      | (Raise err, t) =>
          (Raise ("Getting serial port options: " ++ err)%string, t)
      | (Ok tty_attr, t) =>
          match serial_open_attributes baudrate databits stopbits parity
                  flow_control tty_attr with
          | Raise err => (Raise err, t)
          | Ok tty_attr =>
              match tcsetattr tty_attr t with
              | (Raise err, t) =>
                  (Raise ("Setting serial port options: " ++ err)%string, t)
              | (Ok _, t) => (Ok fd, t)
              end
          end
      end
  end.

(** The bits [stdin_raw_open] clears and [stdin_reset] sets. *)
Definition line_discipline_bits : Z :=
  Z.lor (Z.lor (Z.lor (ICANON termios) (ECHO termios)) (ECHOE termios))
    (ISIG termios).
Definition xon_xoff_bits : Z :=
  Z.lor (Z.lor (IXON termios) (IXOFF termios)) (IXANY termios).

(** [stdin_raw_open]; the terminal is the one behind [sys.stdin]. *)
Definition stdin_raw_open (echo : bool) (t : terminal)
    : result Z * terminal :=
  let fd := 0%Z in
  match tcgetattr t with
  | (Raise err, t) => (Raise ("Getting stdin tty options: " ++ err)%string, t)
  | (Ok stdin_attr, t) =>
      (* Disable canonical input, signal interpretation, and echo *)
      let stdin_attr :=
        set_lflag (Z.land (lflag stdin_attr) (Z.lnot line_discipline_bits))
          stdin_attr in
      (* Enable echo if needed *)
      let stdin_attr :=
        if echo then
          set_lflag (Z.lor (lflag stdin_attr) (ECHO termios)) stdin_attr
        else stdin_attr in
      (* Turn off XON/XOFF interpretation *)
      let stdin_attr :=
        set_iflag (Z.land (iflag stdin_attr) (Z.lnot xon_xoff_bits))
          stdin_attr in
      match tcsetattr stdin_attr t with
      | (Raise err, t) =>
          (Raise ("Setting stdin tty options: " ++ err)%string, t)
      | (Ok _, t) => (Ok fd, t)
      end
  end.

(** [stdin_reset]. *)
Definition stdin_reset (t : terminal) : result unit * terminal :=
  match tcgetattr t with
  | (Raise err, t) => (Raise ("Getting stdin tty options: " ++ err)%string, t)
  | (Ok stdin_attr, t) =>
      (* Enable canonical input, echo, signals *)
      let stdin_attr :=
        set_lflag (Z.lor (lflag stdin_attr) line_discipline_bits)
          stdin_attr in
      (* Re-enable XON/XOFF interpretation *)
      let stdin_attr :=
        set_iflag (Z.lor (iflag stdin_attr) xon_xoff_bits) stdin_attr in
      match tcsetattr stdin_attr t with
      | (Raise err, t) =>
          (Raise ("Setting stdin tty options: " ++ err)%string, t)
      | (Ok _, t) => (Ok tt, t)
      end
  end.

End Termios.

End Tty.

(** * Notions used in the statements *)

(** ** Chunked feeding of the transformers *)

(** Feeding a sequence of chunks through [format_tx_hex], the accumulator
    carried from call to call; the outputs are concatenated. *)
Fixpoint feed_tx_hex (chunks : list bytes) (st : bytes)
    : option (bytes * bytes) :=
  match chunks with
  | [] => Some ([], st)
  | c :: chunks' =>
      '(out1, st1) ← format_tx_hex c st;
      '(out2, st2) ← feed_tx_hex chunks' st1;
      Some (out1 ++ out2, st2)
  end.

(** Feeding a sequence of chunks through [format_rx_nlsub] with a fixed
    pattern, the carry passed from call to call; the outputs are
    concatenated. *)
Fixpoint feed_rx_nlsub (pattern : bytes) (chunks : list bytes) (st : bytes)
    : option (bytes * bytes) :=
  match chunks with
  | [] => Some ([], st)
  | c :: chunks' =>
      '(out1, st1) ← format_rx_nlsub c pattern st;
      '(out2, st2) ← feed_rx_nlsub pattern chunks' st1;
      Some (out1 ++ out2, st2)
  end.

(** The patterns of [RX_Newline_Sub]. *)
Definition rx_patterns : list bytes :=
  [ [CR]; [LF]; [CR; LF]; CR :: B "|" ++ [LF] ].

(** What the one-character patterns do to a character. *)
Definition cr_to_lf (c : ascii) : ascii := if Ascii.eqb CR c then LF else c.
Definition crorlf_to_lf (c : ascii) : ascii :=
  if Ascii.eqb CR c then LF else if Ascii.eqb LF c then LF else c.

(** ** Hexadecimal text *)

(** Hex encoding as the formatters print it: two lowercase digits per
    byte, no separators. *)
Definition hex_encode (data : bytes) : bytes :=
  concat (map (fun x => fmt_02x (ord x)) data).

Definition is_hexdigit (x : ascii) : bool := char_in x string_hexdigits.

(** The accumulator is empty or holds one hexadecimal digit. *)
Definition txhex_ok (st : bytes) : Prop :=
  st = [] \/ exists d, st = [d] /\ is_hexdigit d = true.

(** A pure rendering of the hexadecimal dump: the text written for [data]
    when the cursor stands at [cursor], and the cursor afterwards. *)
Fixpoint hex_render (cursor : nat) (data : bytes) : bytes * nat :=
  match data with
  | [] => ([], cursor)
  | x :: data' =>
      let c := cursor + 1 in
      let sep := if bool_decide (c = Hexadecimal_Columns / 2) then B "  "
                 else if bool_decide (c = Hexadecimal_Columns) then [LF]
                 else B " " in
      let c' := if bool_decide (c = Hexadecimal_Columns / 2) then c
                else if bool_decide (c = Hexadecimal_Columns) then 0 else c in
      let '(out, cf) := hex_render c' data' in
      (fmt_02x (ord x) ++ sep ++ out, cf)
  end.

Definition bytes_00_0f : bytes := map (fun n => ascii_of_nat n) (seq 0 16).

Definition hex_row_00_0f : bytes :=
  B "00 01 02 03 04 05 06 07  08 09 0a 0b 0c 0d 0e 0f" ++ [LF].

(** ** The relay loop and the process *)

(** The option containers name entries of the three tables, as option
    processing ensures. *)
Definition valid_options (opts : Options) : Prop :=
  is_Some (TX_Newline_Sub (transmit_newline (Format_Options opts)))
  /\ is_Some (RX_Newline_Sub (receive_newline (Format_Options opts)))
  /\ is_Some (format_print_table (output_mode (Format_Options opts))).


Definition quit_char : ascii := ascii_of_N Quit_Escape_Character.



Definition ev_stdin_a : select_event := mkEvent (Some (Ok (B "a"))) None.
Definition ev_both_two_bytes : select_event :=
  mkEvent (Some (Ok (B "ab"))) (Some (Ok (B "cd"))).

(** A session on a given device in which every call succeeds, up to what
    the [select] script says. *)
Definition session_env (options : list (string * string))
    (events : list select_event) : Env :=
  mkEnv (Ok (options, ["/dev/ttyUSB0"%string])) (Ok tt) (Ok tt) (Ok tt)
        events [] (Ok tt) (Ok tt).

Definition env_read_error : Env :=
  session_env [] [mkEvent None (Some (Raise "Input/output error"))].

Definition env_quit : Env :=
  session_env [] [mkEvent (Some (Ok [quit_char])) None].

(** The command line [-c a,b,c,d -c e,f,g,h <device>]. *)
Definition two_color_options : list (string * string) :=
  [("-c", "a,b,c,d"); ("-c", "e,f,g,h")]%string.

(** ** Further notions *)

(** ["%02X" % n]: the upper-case spelling of a byte. *)
Definition hex_digit_upper (d : N) : ascii :=
  nth (N.to_nat d) (B "0123456789ABCDEF") "0"%char.
Definition fmt_02X (n : N) : bytes :=
  [hex_digit_upper (n / 16); hex_digit_upper (n mod 16)].

(** Hexadecimal text as it is typed: one two-digit token per byte, in
    upper or lower case as [upper] says, each followed by the separator
    [sep]. *)
Definition hex_tokens (upper : ascii -> bool) (sep : ascii) (data : bytes)
    : bytes :=
  concat (map (fun x => (if upper x then fmt_02X (ord x) else fmt_02x (ord x))
                        ++ [sep]) data).

(** The module-level variables, as opposed to the descriptors' side of the
    state. *)
Definition globals (s : State) : bytes * bytes * nat * bytes :=
  (txhex_state s, rxnl_state s, stdout_cursor_x s, stdout_split_bytes s).

(** A computation that only writes: whatever it returns, it leaves the
    module-level variables alone. *)
Definition io_only {A} (m : M A) : Prop :=
  forall s r s', m s = (r, s') -> globals s' = globals s.

(** [sep.join(parts)] *)
Fixpoint join (sep : bytes) (parts : list bytes) : bytes :=
  match parts with
  | [] => []
  | [p] => p
  | p :: parts' => p ++ sep ++ join sep parts'
  end.

(** What follows a token of the hexadecimal dump when the cursor has
    moved to column [c], and where the cursor then stands. *)
Definition hex_separator (c : nat) : bytes :=
  if bool_decide (c = Hexadecimal_Columns / 2) then B "  "
  else if bool_decide (c = Hexadecimal_Columns) then [LF] else B " ".
Definition hex_next_cursor (c : nat) : nat :=
  if bool_decide (c = Hexadecimal_Columns) then 0 else c.

(** A full row of the hexadecimal dump: two groups of tokens, a single
    space between tokens, two spaces between the groups, a newline. *)
Definition hex_row_text (row : bytes) : bytes :=
  join (B " ") (map (fun x => fmt_02x (ord x)) (take 8 row))
  ++ B "  "
  ++ join (B " ") (map (fun x => fmt_02x (ord x)) (drop 8 row))
  ++ [LF].

(** Every color slot of the dictionary is an index of [Color_Codes]. *)
Definition palette_ok (cc : gmap N nat) : Prop :=
  forall k slot, cc !! k = Some slot -> slot < length Color_Codes.

(** The token of a character with its color code around it, when the
    character is color-coded. *)
Definition colored (cc : gmap N nat) (x : ascii) (token : bytes) : bytes :=
  match cc !! ord x with
  | Some slot =>
      match Color_Codes !! slot with
      | Some code => code ++ token ++ Color_Code_Reset
      | None => token
      end
  | None => token
  end.

(** A computation that, when every write is complete, raises nothing,
    puts the text [t] on the console, and touches neither the serial port
    nor the module-level variables. *)
Definition prints (m : M unit) (t : bytes) : Prop :=
  forall s, write_script s = [] ->
  exists s',
    m s = (Ok tt, s')
    /\ console_sink s' = console_sink s ++ t
    /\ serial_sink s' = serial_sink s
    /\ globals s' = globals s
    /\ write_script s' = [].

(** The split view of a window without color-coded characters: the
    hexadecimal part, padded to the width of a full row, and the ASCII
    part between bars. *)
Definition printable_or_dot (x : ascii) : ascii :=
  if char_in x (string_letters ++ string_digits ++ string_punctuation ++ B " ")
  then x else "."%char.

Definition split_hex_text (row : bytes) : bytes :=
  concat (map (fun i =>
                 match row !! i with
                 | Some x =>
                     fmt_02x (ord x)
                     ++ (if bool_decide (i + 1 = Hexadecimal_Columns / 2)
                         then B "  " else B " ")
                 | None => []
                 end) (seq 0 (length row)))
  ++ (if bool_decide (length row < Hexadecimal_Columns / 2) then
        B " " ++ replicate (3 * (Hexadecimal_Columns - length row)) " "%char
      else if bool_decide (length row < Hexadecimal_Columns) then
        replicate (3 * (Hexadecimal_Columns - length row)) " "%char
      else []).

Definition split_row_text (row : bytes) : bytes :=
  split_hex_text row ++ B " |" ++ map printable_or_dot row ++ B "|".

(** ** Runs without failing system calls *)

(** No coming [os.write] raises (short writes are allowed). *)
Definition no_write_failure (s : State) : Prop :=
  forall msg, ~ In (WriteFails msg) (write_script s).

(** No [os.read] of the iteration raises. *)
Definition reads_ok (ev : select_event) : Prop :=
  (forall msg, stdin_ready ev <> Some (Raise msg))
  /\ (forall msg, serial_ready ev <> Some (Raise msg)).

Definition loop_inv (s : State) : Prop :=
  no_write_failure s /\ txhex_ok (txhex_state s).

(** A computation that raises nothing as long as no write fails and the
    hexadecimal accumulator is in order, and that keeps it so. *)
Definition safe {A} (m : M A) : Prop :=
  forall s, loop_inv s -> exists a s', m s = (Ok a, s') /\ loop_inv s'.

(** ** Terminal attributes *)

(** The values of the constants in Linux's [termbits.h], for the
    examples. *)
Definition linux_termios : Tty.termios_module :=
  Tty.mkTermios
    128 2048
    1 2 3 4 5 6 7 8 9 10 11 12 13 14 15 0x1001 0x1002 0x1003
    0 16 32 48
    256 512 64 0x80000000
    1 16 32 1024 4096 2048
    2 8 16 1.

(** The parameter values that the tables of [serial_open] know. *)
Definition tty_parameters_ok (databits stopbits : Z)
    (parity flow_control : string) : Prop :=
  In databits [5; 6; 7; 8]%Z
  /\ In parity ["none"; "even"; "odd"]%string
  /\ In stopbits [1; 2]%Z
  /\ In flow_control ["none"; "rtscts"; "xonxoff"]%string.

(** No system call still to come raises. *)
Definition calls_succeed (t : Tty.terminal) : Prop :=
  Forall (fun outcome => outcome = None) (Tty.sys_script t).

(** A terminal in cooked mode, as a shell leaves it. *)
Definition cooked_terminal : Tty.terminal :=
  Tty.mkTerminal 0 (Tty.mkAttr 1282 5 191 35387 15 15 [3; 28; 127]%Z) [].

(** ** Directions of the relay *)

(** The [os.write] calls added to the log between two states. *)
Definition new_calls (s s' : State) (calls : list (fd * bytes)) : Prop :=
  write_calls s' = write_calls s ++ calls.

(** Every [os.write] call of [m] goes to a descriptor in [allowed], and
    the devices behind the other descriptors receive nothing. *)
Definition writes_within {A} (allowed : fd -> Prop) (m : M A) : Prop :=
  forall s r s', m s = (r, s') ->
    (exists calls, new_calls s s' calls
                   /\ Forall (fun call => allowed call.1) calls)
    /\ (~ allowed serial_fd -> serial_sink s' = serial_sink s)
    /\ (~ allowed stdout_fd -> console_sink s' = console_sink s).

Definition stdin_silent (ev : select_event) : Prop := stdin_ready ev = None.
Definition serial_silent (ev : select_event) : Prop := serial_ready ev = None.

(** ** Exit paths of option processing *)

Definition is_color_option (option : string * string) : bool :=
  is_opt option.1 "-c" "--color".

(** * Properties *)

(** ** Sanity checks of the transformers *)

Example format_rx_nlsub_crlf :
  format_rx_nlsub (B "ab" ++ [CR; LF] ++ B "c" ++ [CR]) [CR; LF] []
  = Some (B "ab" ++ [LF] ++ B "c", [CR]).
Proof. reflexivity. Qed.

Example format_tx_hex_scenario :
  format_tx_hex (B "41 42" ++ [LF] ++ B "43") [] = Some (B "ABC", []).
Proof. reflexivity. Qed.

(** A full row of the split view, and the live rendering of the row in
    progress. *)
Example format_print_split_rows :
  console_sink
    (format_print_split ∅ (B "0123456789abcdefg") true (initial_state [])).2
  = B "30 31 32 33 34 35 36 37  38 39 61 62 63 64 65 66  |0123456789abcdef|"
    ++ [LF] ++ B "67 " ++ replicate 46 " "%char ++ B " |g|".
Proof. vm_compute. reflexivity. Qed.

(** Slots are handed out in the order of the list; empty items are
    skipped. *)
Example color_option_slots :
  exists o,
    process_options [("-c", "a,0x41,,b")]%string default_options = Continue o
    /\ Color_Chars o !! ord "a" = Some 0
    /\ Color_Chars o !! 65%N = Some 1
    /\ Color_Chars o !! ord "b" = Some 2.
Proof. eexists. repeat split; vm_compute; reflexivity. Qed.

(** ** Hexadecimal interpretation of the console input *)

Lemma format_tx_hex_loop_acc data : forall st acc,
  format_tx_hex_loop data st acc
  = '(out, st') ← format_tx_hex_loop data st []; Some (acc ++ out, st').
Proof.
  induction data as [|x data IH]; intros st acc; cbn [format_tx_hex_loop].
  - cbn. by rewrite app_nil_r.
  - destruct (bool_decide _); [|apply IH].
    destruct (py_int _ 16 ≫= chr) as [c|]; [|done]. cbn.
    rewrite (IH [] (acc ++ [c])), (IH [] [c]).
    destruct (format_tx_hex_loop data [] []) as [[out st']|]; cbn; [|done].
    by rewrite <- app_assoc.
Qed.

Lemma format_tx_hex_app d1 d2 st :
  format_tx_hex (d1 ++ d2) st
  = '(out1, st1) ← format_tx_hex d1 st;
    '(out2, st2) ← format_tx_hex d2 st1;
    Some (out1 ++ out2, st2).
Proof.
  unfold format_tx_hex. revert st.
  induction d1 as [|x d1 IH]; intros st; cbn [app format_tx_hex_loop].
  - cbn. by destruct (format_tx_hex_loop d2 st []) as [[??]|].
  - destruct (bool_decide _).
    + destruct (py_int _ 16 ≫= chr) as [c|]; [|done]. cbn.
      rewrite (format_tx_hex_loop_acc (d1 ++ d2)),
        (format_tx_hex_loop_acc d1), IH.
      destruct (format_tx_hex_loop d1 [] []) as [[o1 s1]|]; cbn; [|done].
      destruct (format_tx_hex_loop d2 s1 []) as [[o2 s2]|]; cbn; done.
    + apply IH.
Qed.

Lemma feed_tx_hex_concat chunks : forall st,
  feed_tx_hex chunks st = format_tx_hex (concat chunks) st.
Proof.
  induction chunks as [|c chunks IH]; intros st; [done|].
  cbn [feed_tx_hex concat]. rewrite format_tx_hex_app.
  destruct (format_tx_hex c st) as [[o1 s1]|]; cbn; [|done].
  by rewrite IH.
Qed.

(** Two hexadecimal digits always decode to a character, the first
    digit being the more significant one. *)
Lemma hex_pair_decodes d1 d2 :
  is_hexdigit d1 = true -> is_hexdigit d2 = true ->
  exists v1 v2 c,
    digit_value d1 = Some v1 /\ digit_value d2 = Some v2
    /\ chr (16 * v1 + v2) = Some c
    /\ py_int [d1; d2] 16 ≫= chr = Some c.
Proof.
  intros H1 H2.
  assert (Hall : forallb (fun a => forallb (fun b =>
            match digit_value a, digit_value b with
            | Some v1, Some v2 =>
                bool_decide (is_Some (chr (16 * v1 + v2))
                             /\ py_int [a; b] 16 ≫= chr = chr (16 * v1 + v2))
            | _, _ => false
            end) string_hexdigits) string_hexdigits = true)
    by (vm_compute; reflexivity).
  unfold is_hexdigit, char_in in *.
  apply existsb_exists in H1 as (a & Ha & ->%Ascii.eqb_eq).
  apply existsb_exists in H2 as (b & Hb & ->%Ascii.eqb_eq).
  rewrite forallb_forall in Hall. specialize (Hall a Ha).
  rewrite forallb_forall in Hall. specialize (Hall b Hb).
  destruct (digit_value a) as [v1|]; [|done].
  destruct (digit_value b) as [v2|]; [|done].
  apply bool_decide_eq_true in Hall as [[c Hc] Hp].
  exists v1, v2, c. rewrite Hp. done.
Qed.

Lemma format_tx_hex_total data : forall st,
  txhex_ok st ->
  exists out st', format_tx_hex data st = Some (out, st') /\ txhex_ok st'.
Proof.
  unfold format_tx_hex.
  induction data as [|x data IH]; intros st Hst; cbn [format_tx_hex_loop].
  - eauto.
  - fold (is_hexdigit x). destruct (is_hexdigit x) eqn:Hx.
    + destruct Hst as [->|(d & -> & Hd)]; cbn [app length].
      * rewrite bool_decide_eq_false_2 by done.
        apply IH. right. eauto.
      * rewrite bool_decide_eq_true_2 by done.
        destruct (hex_pair_decodes d x Hd Hx)
          as (v1 & v2 & c & _ & _ & _ & ->). cbn.
        rewrite format_tx_hex_loop_acc.
        destruct (IH [] (or_introl eq_refl)) as (out & st' & -> & Hok).
        cbn. eauto.
    + cbn. apply IH. by left.
Qed.

Lemma fmt_02x_decodes x :
  is_hexdigit (hex_digit (ord x / 16)) = true
  /\ is_hexdigit (hex_digit (ord x mod 16)) = true
  /\ py_int (fmt_02x (ord x)) 16 ≫= chr = Some x.
Proof. destruct x as [[] [] [] [] [] [] [] []]; vm_compute; done. Qed.

Lemma format_tx_hex_fmt_02x x :
  format_tx_hex (fmt_02x (ord x)) [] = Some ([x], []).
Proof.
  destruct (fmt_02x_decodes x) as (H1 & H2 & H3).
  unfold format_tx_hex, fmt_02x in *. cbn [format_tx_hex_loop].
  fold (is_hexdigit (hex_digit (ord x / 16))).
  fold (is_hexdigit (hex_digit (ord x `mod` 16))).
  rewrite H1. cbn [app length]. rewrite bool_decide_eq_false_2 by done.
  rewrite H2. cbn [app length]. rewrite bool_decide_eq_true_2 by done.
  rewrite H3. done.
Qed.

Lemma format_tx_hex_encode data :
  format_tx_hex (hex_encode data) [] = Some (data, []).
Proof.
  induction data as [|x data IH]; [done|].
  change (hex_encode (x :: data)) with (fmt_02x (ord x) ++ hex_encode data).
  rewrite format_tx_hex_app, format_tx_hex_fmt_02x. cbn.
  change (format_tx_hex_loop (hex_encode data) [] [])
    with (format_tx_hex (hex_encode data) []).
  by rewrite IH.
Qed.

Lemma format_tx_hex_reset x rest st :
  is_hexdigit x = false -> format_tx_hex (x :: rest) st = format_tx_hex rest [].
Proof.
  intros Hx. unfold format_tx_hex. cbn [format_tx_hex_loop].
  fold (is_hexdigit x). by rewrite Hx.
Qed.

Lemma format_tx_hex_trailing pre out d st :
  is_hexdigit d = true ->
  format_tx_hex pre st = Some (out, []) ->
  format_tx_hex (pre ++ [d]) st = Some (out, [d]).
Proof.
  intros Hd Hpre. rewrite format_tx_hex_app, Hpre. cbn [mbind option_bind].
  unfold format_tx_hex. cbn [format_tx_hex_loop].
  fold (is_hexdigit d). rewrite Hd. cbn [app length].
  rewrite bool_decide_eq_false_2 by done. cbn. by rewrite app_nil_r.
Qed.

Lemma format_tx_hex_pair d1 d2 c rest :
  is_hexdigit d2 = true ->
  py_int [d1; d2] 16 ≫= chr = Some c ->
  format_tx_hex (d2 :: rest) [d1]
  = '(out, st) ← format_tx_hex rest []; Some (c :: out, st).
Proof.
  intros Hd Hc. unfold format_tx_hex. cbn [format_tx_hex_loop].
  fold (is_hexdigit d2). rewrite Hd. cbn [app length].
  rewrite bool_decide_eq_true_2 by done. rewrite Hc. cbn [mbind option_bind].
  by rewrite format_tx_hex_loop_acc.
Qed.

(** C7: decoding, from an empty accumulator, the two-lowercase-digit
    hexadecimal encoding of a byte sequence returns that byte sequence
    and leaves the accumulator empty. *)
Theorem hex_decode_encode (data : bytes) :
  format_tx_hex (hex_encode data) [] = Some (data, []).
Proof. apply format_tx_hex_encode. Qed.

(** C8: fed chunk by chunk from an empty accumulator, [format_tx_hex]
    returns what it returns on the concatenation of the chunks, and it
    raises nothing.  A hexadecimal digit left over at the end of a chunk is
    kept and forms a byte, as the more significant digit, with the first
    digit of the next chunk; a character that is no hexadecimal digit is
    dropped and empties the accumulator. *)
Theorem tx_hex_boundary_invariant (chunks : list bytes) :
  (exists out st,
      feed_tx_hex chunks [] = Some (out, st)
      /\ format_tx_hex (concat chunks) [] = Some (out, st))
  /\ (forall pre out d1 d2 rest,
        is_hexdigit d1 = true -> is_hexdigit d2 = true ->
        format_tx_hex pre [] = Some (out, []) ->
        format_tx_hex (pre ++ [d1]) [] = Some (out, [d1])
        /\ exists v1 v2 c,
             digit_value d1 = Some v1 /\ digit_value d2 = Some v2
             /\ chr (16 * v1 + v2) = Some c
             /\ format_tx_hex (d2 :: rest) [d1]
                = '(out', st') ← format_tx_hex rest []; Some (c :: out', st'))
  /\ (forall x st rest,
        is_hexdigit x = false ->
        format_tx_hex (x :: rest) st = format_tx_hex rest []).
Proof.
  split; [|split].
  - destruct (format_tx_hex_total (concat chunks) [] (or_introl eq_refl))
      as (out & st & H & _).
    exists out, st. by rewrite feed_tx_hex_concat.
  - intros pre out d1 d2 rest H1 H2 Hpre.
    split; [by apply format_tx_hex_trailing|].
    destruct (hex_pair_decodes d1 d2 H1 H2)
      as (v1 & v2 & c & Hv1 & Hv2 & Hc & Hp).
    exists v1, v2, c. repeat split; [done..|].
    by apply format_tx_hex_pair.
  - intros x st rest. apply format_tx_hex_reset.
Qed.

Lemma tx_hex_boundary_invariant_witness :
  (exists out st,
      feed_tx_hex [B "4"; B "1 4"; B "2"] [] = Some (out, st)
      /\ format_tx_hex (concat [B "4"; B "1 4"; B "2"]) [] = Some (out, st))
  /\ format_tx_hex (B "41 4") [] = Some (B "A", B "4")
  /\ format_tx_hex (B "z4") (B "4") = format_tx_hex (B "4") [].
Proof.
  destruct (tx_hex_boundary_invariant [B "4"; B "1 4"; B "2"])
    as (H1 & H2 & H3).
  split; [exact H1|]. split.
  - apply (H2 (B "41 ") (B "A") "4"%char "2"%char []); reflexivity.
  - apply (H3 "z"%char (B "4") (B "4")). reflexivity.
Defined.

(** ** Receive newline substitution *)

(** *** Boundary invariance from three properties of the substitution *)

Section RxCarry.

Variable pattern : bytes.
Variable c0 : ascii.
Local Abbreviation F := (re_sub pattern Console_Newline).

Hypothesis pattern_head : head pattern = Some c0.
(** A held-back last character can be put in front of what follows. *)
Hypothesis F_carry : forall a b,
  last (F a) = Some c0 -> F (a ++ b) = removelast (F a) ++ F (c0 :: b).
(** Behind any other last character the substitution starts afresh. *)
Hypothesis F_fresh : forall a b,
  last (F a) <> Some c0 -> F (a ++ b) = F a ++ F b.
Hypothesis F_nonempty : forall a, a <> [] -> F a <> [].

Lemma format_rx_nlsub_unfold data st :
  format_rx_nlsub data pattern st
  = d ← last (F (st ++ data));
    if Ascii.eqb d c0 then Some (removelast (F (st ++ data)), [d])
    else Some (F (st ++ data), []).
Proof. unfold format_rx_nlsub. rewrite pattern_head. done. Qed.

Lemma format_rx_nlsub_Some data st :
  st ++ data <> [] ->
  exists out st', format_rx_nlsub data pattern st = Some (out, st').
Proof.
  intros Hne. rewrite format_rx_nlsub_unfold.
  destruct (last (F (st ++ data))) as [d|] eqn:Hl.
  - cbn. destruct (Ascii.eqb d c0) eqn:E.
    + by do 2 eexists.
    + by do 2 eexists.
  - apply last_None in Hl. by apply F_nonempty in Hne.
Qed.

Lemma split_last_app (o y : bytes) :
  y <> [] -> last (o ++ y) = last y /\ removelast (o ++ y) = o ++ removelast y.
Proof.
  intros Hy. split; [|by apply removelast_app].
  rewrite last_app. destruct (last y) eqn:E; [done|].
  by apply last_None in E.
Qed.

Lemma format_rx_nlsub_app d1 d2 st o1 st1 :
  d2 <> [] ->
  format_rx_nlsub d1 pattern st = Some (o1, st1) ->
  format_rx_nlsub (d1 ++ d2) pattern st
  = '(o2, st2) ← format_rx_nlsub d2 pattern st1; Some (o1 ++ o2, st2).
Proof.
  intros Hd2. rewrite !format_rx_nlsub_unfold.
  destruct (last (F (st ++ d1))) as [d|] eqn:Hl; [cbn|done].
  rewrite (assoc_L (++) st d1 d2).
  destruct (Ascii.eqb d c0) eqn:E; intros [= <- <-].
  - apply Ascii.eqb_eq in E as ->.
    rewrite (F_carry _ d2 Hl). cbn [app].
    assert (Hy : F (c0 :: d2) <> []) by (by apply F_nonempty).
    destruct (split_last_app (removelast (F (st ++ d1))) _ Hy) as [-> ->].
    destruct (last (F (c0 :: d2))) as [e|]; cbn; [|done].
    by destruct (Ascii.eqb e c0).
  - assert (Hl' : last (F (st ++ d1)) <> Some c0).
    { rewrite Hl. intros [= ->]. by rewrite Ascii.eqb_refl in E. }
    rewrite (F_fresh _ d2 Hl'). cbn [app].
    assert (Hy : F d2 <> []) by (by apply F_nonempty).
    destruct (split_last_app (F (st ++ d1)) _ Hy) as [-> ->].
    destruct (last (F d2)) as [e|]; cbn; [|done].
    by destruct (Ascii.eqb e c0).
Qed.

Lemma feed_rx_nlsub_concat chunks : forall st,
  chunks <> [] -> Forall (fun c => c <> []) chunks ->
  exists out st',
    feed_rx_nlsub pattern chunks st = Some (out, st')
    /\ format_rx_nlsub (concat chunks) pattern st = Some (out, st').
Proof.
  induction chunks as [|c chunks IH]; intros st Hne Hall; [done|].
  apply Forall_cons in Hall as [Hc Hall].
  assert (Hsc : st ++ c <> []) by (by destruct st, c).
  destruct (format_rx_nlsub_Some c st Hsc) as (o1 & st1 & H1).
  cbn [feed_rx_nlsub concat]. rewrite H1. cbn.
  destruct chunks as [|c' chunks'].
  - cbn. rewrite !app_nil_r. eauto.
  - destruct (IH st1) as (o2 & st2 & -> & H2); [done..|].
    apply Forall_cons in Hall as [Hc' _].
    rewrite (format_rx_nlsub_app c _ st o1 st1); [|by destruct c'|done].
    rewrite H2. cbn. eauto.
Qed.

End RxCarry.

(** *** The substitution for each pattern of the table *)

(** One step of the scan of [re_sub]. *)
Ltac re_sub_step := cbn [re_sub_from match_at is_prefix app length andb].

Lemma re_sub_cr data : re_sub [CR] Console_Newline data = cr_to_lf <$> data.
Proof.
  unfold re_sub, Console_Newline. change (re_alternatives [CR]) with [[CR]].
  induction data as [|c data IH]; [done|].
  rewrite fmap_cons. re_sub_step. unfold cr_to_lf.
  destruct (Ascii.eqb CR c); re_sub_step; by rewrite IH.
Qed.

Lemma re_sub_crorlf data :
  re_sub (CR :: B "|" ++ [LF]) Console_Newline data = crorlf_to_lf <$> data.
Proof.
  unfold re_sub, Console_Newline.
  change (re_alternatives (CR :: B "|" ++ [LF])) with [[CR]; [LF]].
  induction data as [|c data IH]; [done|].
  rewrite fmap_cons. re_sub_step. unfold crorlf_to_lf.
  destruct (Ascii.eqb CR c); re_sub_step; [by rewrite IH|].
  destruct (Ascii.eqb LF c); re_sub_step; by rewrite IH.
Qed.

Lemma re_sub_lf data : re_sub [LF] Console_Newline data = data.
Proof.
  unfold re_sub, Console_Newline. change (re_alternatives [LF]) with [[LF]].
  induction data as [|c data IH]; [done|].
  re_sub_step.
  destruct (Ascii.eqb LF c) eqn:E; re_sub_step; rewrite IH; [|done].
  by apply Ascii.eqb_eq in E as <-.
Qed.

(** The equations of the substitution for the two-character pattern. *)
Lemma re_sub_crlf_single c : re_sub [CR; LF] Console_Newline [c] = [c].
Proof.
  unfold re_sub, Console_Newline.
  change (re_alternatives [CR; LF]) with [[CR; LF]].
  re_sub_step. by destruct (Ascii.eqb CR c).
Qed.

Lemma re_sub_crlf_match t :
  re_sub [CR; LF] Console_Newline (CR :: LF :: t)
  = LF :: re_sub [CR; LF] Console_Newline t.
Proof. done. Qed.

Lemma re_sub_crlf_other c x t :
  ~ (c = CR /\ x = LF) ->
  re_sub [CR; LF] Console_Newline (c :: x :: t)
  = c :: re_sub [CR; LF] Console_Newline (x :: t).
Proof.
  intros Hne.
  unfold re_sub, Console_Newline.
  change (re_alternatives [CR; LF]) with [[CR; LF]].
  cbn [re_sub_from match_at is_prefix].
  destruct (Ascii.eqb CR c) eqn:E1; [|done].
  destruct (Ascii.eqb LF x) eqn:E2; [|done].
  apply Ascii.eqb_eq in E1, E2. by destruct Hne.
Qed.

Lemma list_ind2 {A} (P : list A -> Prop) :
  P [] -> (forall c, P [c]) ->
  (forall c x t, P t -> P (x :: t) -> P (c :: x :: t)) ->
  forall l, P l.
Proof.
  intros H0 H1 H2 l.
  cut (P l /\ forall c, P (c :: l)); [by intros [? _]|].
  induction l as [|x l [IHl IHc]]; [by split|].
  split; [apply IHc|]. intros c. by apply H2.
Qed.

Lemma crlf_cases (c x : ascii) : (c = CR /\ x = LF) \/ ~ (c = CR /\ x = LF).
Proof. destruct (decide (c = CR)), (decide (x = LF)); tauto. Qed.

Lemma re_sub_crlf_nonempty a :
  a <> [] -> re_sub [CR; LF] Console_Newline a <> [].
Proof.
  destruct a as [|c [|x t]]; [done| |]; intros _.
  - by rewrite re_sub_crlf_single.
  - destruct (crlf_cases c x) as [[-> ->]|Hne].
    + by rewrite re_sub_crlf_match.
    + by rewrite re_sub_crlf_other.
Qed.

Lemma re_sub_crlf_last a :
  last (re_sub [CR; LF] Console_Newline a) = last a.
Proof.
  induction a as [| c | c x t IHt IHxt] using list_ind2; [done| |].
  - by rewrite re_sub_crlf_single.
  - destruct (crlf_cases c x) as [[-> ->]|Hne].
    + rewrite re_sub_crlf_match, last_cons, IHt.
      destruct t as [|y t]; [done|]. rewrite !last_cons_cons.
      destruct (last (y :: t)) eqn:E; [done|]. by apply last_None in E.
    + rewrite re_sub_crlf_other, last_cons, IHxt, last_cons_cons by done.
      destruct (last (x :: t)) eqn:E; [done|]. by apply last_None in E.
Qed.

(** Splitting in front of a carriage return never breaks a match. *)
Lemma re_sub_crlf_before_cr a b :
  re_sub [CR; LF] Console_Newline (a ++ CR :: b)
  = re_sub [CR; LF] Console_Newline a
    ++ re_sub [CR; LF] Console_Newline (CR :: b).
Proof.
  induction a as [| c | c x t IHt IHxt] using list_ind2; [done| |].
  - rewrite re_sub_crlf_single. cbn [app].
    rewrite re_sub_crlf_other; [done|]. intros [_ [=]].
  - cbn [app] in *. destruct (crlf_cases c x) as [[-> ->]|Hne].
    + by rewrite !re_sub_crlf_match, IHt.
    + by rewrite !re_sub_crlf_other, IHxt.
Qed.

(** Splitting behind any other character never breaks a match. *)
Lemma re_sub_crlf_after_other a b :
  last a <> Some CR ->
  re_sub [CR; LF] Console_Newline (a ++ b)
  = re_sub [CR; LF] Console_Newline a ++ re_sub [CR; LF] Console_Newline b.
Proof.
  induction a as [| c | c x t IHt IHxt] using list_ind2; intros Hl; [done| |].
  - rewrite re_sub_crlf_single. cbn [app]. destruct b as [|y b].
    + by rewrite re_sub_crlf_single.
    + rewrite re_sub_crlf_other; [done|]. intros [-> _]. by apply Hl.
  - cbn [app] in *. rewrite last_cons_cons in Hl.
    destruct (crlf_cases c x) as [[-> ->]|Hne].
    + rewrite !re_sub_crlf_match, IHt; [done|].
      destruct t; [done|]. by rewrite last_cons_cons in Hl.
    + by rewrite !re_sub_crlf_other, IHxt.
Qed.

Lemma cr_to_lf_not_cr c : cr_to_lf c <> CR.
Proof.
  unfold cr_to_lf. destruct (Ascii.eqb CR c) eqn:E; [done|].
  intros ->. by rewrite Ascii.eqb_refl in E.
Qed.

Lemma crorlf_to_lf_not_cr c : crorlf_to_lf c <> CR.
Proof.
  unfold crorlf_to_lf. destruct (Ascii.eqb CR c) eqn:E; [done|].
  destruct (Ascii.eqb LF c); [done|].
  intros ->. by rewrite Ascii.eqb_refl in E.
Qed.

Lemma last_fmap_ne (f : ascii -> ascii) c0 a :
  (forall c, f c <> c0) -> last (f <$> a) <> Some c0.
Proof.
  intros Hf. rewrite fmap_last. destruct (last a) as [c|]; [|done].
  intros [= E]. by apply (Hf c).
Qed.

Lemma feed_rx_nlsub_cr chunks :
  chunks <> [] -> Forall (fun c => c <> []) chunks ->
  exists out st,
    feed_rx_nlsub [CR] chunks [] = Some (out, st)
    /\ format_rx_nlsub (concat chunks) [CR] [] = Some (out, st).
Proof.
  apply (feed_rx_nlsub_concat [CR] CR eq_refl).
  - intros a b Hl. rewrite re_sub_cr in Hl.
    by apply last_fmap_ne in Hl; [|apply cr_to_lf_not_cr].
  - intros a b _. by rewrite !re_sub_cr, fmap_app.
  - intros a Ha. rewrite re_sub_cr. by destruct a.
Qed.

Lemma feed_rx_nlsub_crorlf chunks :
  chunks <> [] -> Forall (fun c => c <> []) chunks ->
  exists out st,
    feed_rx_nlsub (CR :: B "|" ++ [LF]) chunks [] = Some (out, st)
    /\ format_rx_nlsub (concat chunks) (CR :: B "|" ++ [LF]) []
       = Some (out, st).
Proof.
  apply (feed_rx_nlsub_concat (CR :: B "|" ++ [LF]) CR eq_refl).
  - intros a b Hl. rewrite re_sub_crorlf in Hl.
    by apply last_fmap_ne in Hl; [|apply crorlf_to_lf_not_cr].
  - intros a b _. by rewrite !re_sub_crorlf, fmap_app.
  - intros a Ha. rewrite re_sub_crorlf. by destruct a.
Qed.

Lemma feed_rx_nlsub_lf chunks :
  chunks <> [] -> Forall (fun c => c <> []) chunks ->
  exists out st,
    feed_rx_nlsub [LF] chunks [] = Some (out, st)
    /\ format_rx_nlsub (concat chunks) [LF] [] = Some (out, st).
Proof.
  apply (feed_rx_nlsub_concat [LF] LF eq_refl).
  - intros a b Hl. rewrite !re_sub_lf in *.
    apply last_Some in Hl as [a' ->].
    by rewrite removelast_last, <- app_assoc.
  - intros a b _. by rewrite !re_sub_lf.
  - intros a Ha. by rewrite re_sub_lf.
Qed.

Lemma feed_rx_nlsub_crlf chunks :
  chunks <> [] -> Forall (fun c => c <> []) chunks ->
  exists out st,
    feed_rx_nlsub [CR; LF] chunks [] = Some (out, st)
    /\ format_rx_nlsub (concat chunks) [CR; LF] [] = Some (out, st).
Proof.
  apply (feed_rx_nlsub_concat [CR; LF] CR eq_refl).
  - intros a b Hl. rewrite re_sub_crlf_last in Hl.
    apply last_Some in Hl as [a' ->].
    rewrite <- app_assoc. cbn [app].
    rewrite !re_sub_crlf_before_cr, re_sub_crlf_single, removelast_last.
    done.
  - intros a b Hl. rewrite re_sub_crlf_last in Hl.
    by apply re_sub_crlf_after_other.
  - apply re_sub_crlf_nonempty.
Qed.

(** The patterns are the entries of the table other than [raw]. *)
Lemma RX_Newline_Sub_patterns k pattern :
  RX_Newline_Sub k = Some (Some pattern) -> In pattern rx_patterns.
Proof.
  unfold RX_Newline_Sub, rx_patterns.
  repeat (destruct (String.eqb k _); [intros [= <-]; cbn; tauto|]).
  done.
Qed.

(** On a non-empty buffer the transformer raises nothing, whatever the
    carry, for each pattern of the table. *)
Lemma re_sub_table_nonempty pattern a :
  In pattern rx_patterns -> a <> [] -> re_sub pattern Console_Newline a <> [].
Proof.
  intros Hp Ha. cbn in Hp. destruct Hp as [<-|[<-|[<-|[<-|[]]]]].
  - rewrite re_sub_cr. by destruct a.
  - by rewrite re_sub_lf.
  - by apply re_sub_crlf_nonempty.
  - rewrite re_sub_crorlf. by destruct a.
Qed.

Lemma format_rx_nlsub_table pattern data st :
  In pattern rx_patterns -> data <> [] ->
  exists out st', format_rx_nlsub data pattern st = Some (out, st').
Proof.
  intros Hp Hd.
  assert (Hhead : exists c0, head pattern = Some c0).
  { cbn in Hp. destruct Hp as [<-|[<-|[<-|[<-|[]]]]]; by eexists. }
  destruct Hhead as [c0 Hc0].
  apply (format_rx_nlsub_Some pattern c0 Hc0).
  - intros a. by apply re_sub_table_nonempty.
  - by destruct st, data.
Qed.

(** C1: for each pattern of the table and every byte string cut in any
    way into non-empty chunks, feeding the chunks one after the other from
    an empty carry succeeds and yields the output (and the carry) of
    feeding the whole string as one chunk.  The whole string is itself a
    non-empty chunk, as every buffer is that the relay loop hands to the
    transformer. *)
Theorem rx_nlsub_boundary_invariant (pattern : bytes) (chunks : list bytes) :
  In pattern rx_patterns ->
  chunks <> [] ->
  Forall (fun c => c <> []) chunks ->
  exists out st,
    feed_rx_nlsub pattern chunks [] = Some (out, st)
    /\ format_rx_nlsub (concat chunks) pattern [] = Some (out, st).
Proof.
  intros Hp. cbn in Hp. destruct Hp as [<-|[<-|[<-|[<-|[]]]]].
  - apply feed_rx_nlsub_cr.
  - apply feed_rx_nlsub_lf.
  - apply feed_rx_nlsub_crlf.
  - apply feed_rx_nlsub_crorlf.
Qed.

Lemma rx_nlsub_boundary_invariant_witness :
  exists out st,
    feed_rx_nlsub [CR; LF] [B "a" ++ [CR]; LF :: B "b"] [] = Some (out, st)
    /\ format_rx_nlsub (concat [B "a" ++ [CR]; LF :: B "b"]) [CR; LF] []
       = Some (out, st).
Proof.
  apply (rx_nlsub_boundary_invariant [CR; LF] [B "a" ++ [CR]; LF :: B "b"]).
  - cbn. tauto.
  - discriminate.
  - repeat constructor; discriminate.
Defined.

(** ** The hexadecimal formatter *)

Lemma color_coded_empty x token : color_coded ∅ x token = ret token.
Proof. unfold color_coded. by rewrite lookup_empty. Qed.

Lemma format_print_hexadecimal_plain data : forall s,
  write_script s = [] ->
  exists s',
    format_print_hexadecimal ∅ data false s = (Ok tt, s')
    /\ console_sink s' = console_sink s ++ (hex_render (stdout_cursor_x s) data).1
    /\ stdout_cursor_x s' = (hex_render (stdout_cursor_x s) data).2
    /\ serial_sink s' = serial_sink s
    /\ write_script s' = [].
Proof.
  induction data as [|x data IH]; intros s Hs.
  - exists s. simpl. rewrite app_nil_r. done.
  - unfold format_print_hexadecimal in *. cbn [for_each].
    set (k := for_each data _) in *. clearbody k.
    rewrite color_coded_empty, andb_false_r.
    destruct s as [tx rx cur sb ss cs wc ws]. simpl in Hs. subst ws.
    unfold bind, ret, modify, get, fd_write.
    cbn -[Nat.div fmt_02x B hex_render]. cbn [hex_render].
    destruct (bool_decide (cur + 1 = Hexadecimal_Columns / 2));
      [|destruct (bool_decide (cur + 1 = Hexadecimal_Columns))];
      cbn -[Nat.div fmt_02x B hex_render];
      (match goal with
       | |- context [k ?s0] =>
           destruct (IH s0 eq_refl) as (s' & -> & Hc & Hx & Hser & Hw)
       end);
      cbn -[Nat.div fmt_02x B hex_render] in *;
      destruct (hex_render _ data) as [out cf];
      exists s'; cbn -[fmt_02x B] in *; rewrite Hc, <- !app_assoc; done.
Qed.

(** C9: in output mode hex, with no color-coded characters, the cursor at
    column 0 and complete writes, the bytes 0x00 to 0x0F are printed as
    sixteen two-digit lowercase tokens, single spaces between them, a
    double space behind the eighth, and one newline behind the last; the
    cursor is back at column 0. *)
Theorem hex_dump_first_row (s0 : State)
    (format_print : gmap N nat -> bytes -> M unit) :
  format_print_table "hex" = Some format_print ->
  stdout_cursor_x s0 = 0 ->
  write_script s0 = [] ->
  exists s1,
    format_print ∅ bytes_00_0f s0 = (Ok tt, s1)
    /\ console_sink s1 = console_sink s0 ++ hex_row_00_0f
    /\ stdout_cursor_x s1 = 0.
Proof.
  intros [= <-] Hc Hw.
  destruct (format_print_hexadecimal_plain bytes_00_0f s0 Hw)
    as (s1 & Hrun & Hcs & Hx & _).
  exists s1. rewrite Hrun, Hcs, Hx, Hc.
  split; [reflexivity|].
  split; [f_equal; vm_compute; reflexivity | vm_compute; reflexivity].
Qed.

Lemma hex_dump_first_row_witness :
  exists s1,
    format_print_hexadecimal ∅ bytes_00_0f false (initial_state []) = (Ok tt, s1)
    /\ console_sink s1 = console_sink (initial_state []) ++ hex_row_00_0f
    /\ stdout_cursor_x s1 = 0.
Proof.
  apply (hex_dump_first_row (initial_state [])
           (fun cc data => format_print_hexadecimal cc data false));
    reflexivity.
Defined.

(** ** The relay loop *)

Section RelayLoop.

Variables (txnl_sub rxnl_sub : option bytes) (input_mode : string).
Variable format_print : bytes -> M unit.

Local Abbreviation relay' := (relay txnl_sub rxnl_sub input_mode format_print).




Lemma relay_quit buff sr events s :
  char_in quit_char buff = true ->
  relay' (mkEvent (Some (Ok buff)) sr :: events) s = (Ok Returned, s).
Proof.
  intros Hq. cbn [relay stdin_ready].
  unfold bind, stdin_block, try_except, bind.
  cbn [fd_read ret].
  destruct buff as [|x buff]; [done|].
  rewrite bool_decide_eq_true_2 by (cbn; lia).
  fold quit_char. by rewrite Hq.
Qed.



End RelayLoop.



(** Option processing keeps the containers within the tables. *)
Lemma format_print_table_modes mode :
  one_of mode ["raw"; "split"; "splitfull"; "hex"; "hexnl"]%string = true ->
  is_Some (format_print_table mode).
Proof.
  unfold one_of, format_print_table. cbn [existsb].
  repeat (destruct (String.eqb mode _); [by eexists|]). done.
Qed.

Lemma process_option_valid opt_c opt_arg o o' :
  valid_options o ->
  process_option opt_c opt_arg o = Continue o' ->
  valid_options o'.
Proof.
  intros (Htx & Hrx & Hfp). unfold process_option.
  repeat match goal with
         | |- (if ?c then _ else _) = _ -> _ => destruct c eqn:?
         end;
    unfold int_option, choice_option, color_option;
    repeat match goal with
           | |- context [match ?x with _ => _ end] => destruct x eqn:?
           end;
    intros [= <-]; try done; repeat split; cbn; try done.
  - by apply format_print_table_modes.
  - by eapply bool_decide_eq_true_1.
  - by eapply bool_decide_eq_true_1.
Qed.

Lemma process_options_valid options : forall o o',
  valid_options o ->
  process_options options o = Continue o' ->
  valid_options o'.
Proof.
  induction options as [|[opt_c opt_arg] options IH]; intros o o' Hv; cbn.
  - by intros [= <-].
  - destruct (process_option opt_c opt_arg o) as [o1|] eqn:E; [|done].
    apply IH. by eapply process_option_valid.
Qed.

Lemma default_options_valid : valid_options default_options.
Proof. repeat split; by eexists. Qed.

Lemma read_write_loop_relay opts :
  valid_options opts ->
  exists txnl_sub rxnl_sub format_print,
    TX_Newline_Sub (transmit_newline (Format_Options opts)) = Some txnl_sub
    /\ RX_Newline_Sub (receive_newline (Format_Options opts)) = Some rxnl_sub
    /\ format_print_table (output_mode (Format_Options opts)) = Some format_print
    /\ forall events,
         read_write_loop opts events
         = relay txnl_sub rxnl_sub (input_mode (Format_Options opts))
                 (format_print (Color_Chars opts)) events.
Proof.
  intros ([tx Htx] & [rx Hrx] & [fp Hfp]). exists tx, rx, fp.
  repeat split; [done..|]. intros events.
  unfold read_write_loop. by rewrite Htx, Hrx, Hfp.
Qed.









(** C5: a console-input chunk that contains the quit character at any
    position makes the loop return in that iteration, whatever the serial
    descriptor has ready and whatever events would follow; the bytes
    delivered to the serial port are those delivered before, so no byte
    behind the quit character is written. *)
Theorem quit_sentinel_stops_loop (opts : Options) (buff : bytes)
    (sr : option (result bytes)) (events : list select_event) (s : State) :
  valid_options opts ->
  char_in quit_char buff = true ->
  exists s',
    read_write_loop opts (mkEvent (Some (Ok buff)) sr :: events) s
    = (Ok Returned, s')
    /\ serial_sink s' = serial_sink s.
Proof.
  intros Hv Hq.
  destruct (read_write_loop_relay opts Hv) as (tx & rx & fp & _ & _ & _ & ->).
  exists s. split; [|done]. by apply relay_quit.
Qed.

Lemma quit_sentinel_stops_loop_witness :
  exists s',
    read_write_loop default_options
      (mkEvent (Some (Ok (B "ab" ++ [quit_char] ++ B "cd"))) None :: [ev_stdin_a])
      (initial_state [])
    = (Ok Returned, s')
    /\ serial_sink s' = serial_sink (initial_state []).
Proof.
  apply (quit_sentinel_stops_loop default_options (B "ab" ++ [quit_char] ++ B "cd")
           None [ev_stdin_a] (initial_state [])).
  - apply default_options_valid.
  - reflexivity.
Defined.

(** C10: when a console-input chunk holds the quit character, the loop
    returns with the state it had before the chunk was read: [os.write] is
    not called, so the bytes in front of the quit character are discarded
    like those behind it, and the hexadecimal accumulator is not touched. *)
Theorem quit_chunk_discarded (opts : Options) (pre post : bytes)
    (sr : option (result bytes)) (events : list select_event) (s : State) :
  valid_options opts ->
  read_write_loop opts
    (mkEvent (Some (Ok (pre ++ quit_char :: post))) sr :: events) s
  = (Ok Returned, s).
Proof.
  intros Hv.
  destruct (read_write_loop_relay opts Hv) as (tx & rx & fp & _ & _ & _ & ->).
  apply relay_quit. unfold char_in. rewrite existsb_app. cbn [existsb].
  by rewrite Ascii.eqb_refl, orb_true_r.
Qed.

Lemma quit_chunk_discarded_witness :
  read_write_loop default_options
    (mkEvent (Some (Ok (B "ab" ++ quit_char :: B "cd"))) None :: [])
    (initial_state [])
  = (Ok Returned, initial_state []).
Proof.
  apply (quit_chunk_discarded default_options (B "ab") (B "cd") None []
           (initial_state [])).
  apply default_options_valid.
Defined.

(** ** Start-up and shut-down *)

(** C2 as stated fails: when the loop raises, the process writes the
    message and exits with status -1; [stdin_reset] and [serial_close] are
    not called. *)
Lemma fatal_error_skips_cleanup :
  (main env_read_error).2 = Some (-1)%Z
  /\ In (StderrWrite ("Error reading serial port: Input/output error" ++ nl ++ nl))
        (main env_read_error).1
  /\ ~ In StdinReset (main env_read_error).1
  /\ ~ In SerialClose (main env_read_error).1.
Proof.
  vm_compute. split; [reflexivity|]. split; [tauto|].
  split; intros H; decompose [or] H; (discriminate || contradiction).
Qed.

(** [main] up to the end of the relay loop, for a command line that is
    accepted and descriptors that open. *)
Lemma main_session env options device args o r final :
  getopt env = Ok (options, device :: args) ->
  process_options options default_options = Continue o ->
  serial_open env = Ok tt ->
  stdin_raw_open env = Ok tt ->
  stdout_raw_open env = Ok tt ->
  read_write_loop o (select_script env) (initial_state (os_write_script env))
    = (r, final) ->
  main env
  = ([SerialOpen device (TTY_Options o); StdinRawOpen (echo (Format_Options o));
      StdoutRawOpen; RelayLoop final] ++ (after_loop env r).1,
     (after_loop env r).2).
Proof.
  intros Hg Hp H1 H2 H3 Hl. unfold main, session.
  rewrite Hg, Hp, H1, H2, H3, Hl. by destruct (after_loop env r).
Qed.

(** C2 (as amended): after the relay loop has returned normally, on the
    quit character, [stdin_reset] is called; when it succeeds
    [serial_close] is called, and when that succeeds too the process ends
    with status 0; when [stdin_reset] raises, the process exits with
    status -1 and [serial_close] is not called.  When the loop raises a
    fatal error, the message is written to standard error and the process
    exits with status -1; neither [stdin_reset] nor [serial_close] is
    called. *)
Theorem cleanup_only_after_normal_return (env : Env)
    (options : list (string * string)) (device : string) (args : list string)
    (o : Options) (r : result loop_exit) (final : State) :
  getopt env = Ok (options, device :: args) ->
  process_options options default_options = Continue o ->
  serial_open env = Ok tt ->
  stdin_raw_open env = Ok tt ->
  stdout_raw_open env = Ok tt ->
  read_write_loop o (select_script env) (initial_state (os_write_script env))
    = (r, final) ->
  (r = Ok Returned ->
     In StdinReset (main env).1
     /\ (stdin_reset env = Ok tt -> In SerialClose (main env).1)
     /\ (stdin_reset env = Ok tt -> serial_close env = Ok tt ->
         (main env).2 = Some 0%Z)
     /\ (forall err, stdin_reset env = Raise err ->
           ~ In SerialClose (main env).1 /\ (main env).2 = Some (-1)%Z))
  /\ (forall err, r = Raise err ->
        In (StderrWrite (err ++ nl)) (main env).1
        /\ ~ In StdinReset (main env).1
        /\ ~ In SerialClose (main env).1
        /\ (main env).2 = Some (-1)%Z).
Proof.
  intros Hg Hp H1 H2 H3 Hl.
  rewrite (main_session env options device args o r final) by done.
  cbn [fst snd]. split.
  - intros ->. cbn [after_loop].
    destruct (stdin_reset env) as [[]|e1];
      [destruct (serial_close env) as [[]|e2]|];
      cbn; (split; [tauto|]); (split; [intros; tauto || discriminate|]);
      (split; [intros; done|]); intros err Herr; try discriminate.
    split; [|done]. intros H. decompose [or] H;
      (discriminate || contradiction).
  - intros err ->. cbn. split; [tauto|].
    split; [|split; [|done]]; intros H; decompose [or] H;
      (discriminate || contradiction).
Qed.

Lemma cleanup_only_after_normal_return_witness :
  (In StdinReset (main env_quit).1
   /\ In SerialClose (main env_quit).1
   /\ (main env_quit).2 = Some 0%Z)
  /\ (~ In StdinReset (main env_read_error).1
      /\ ~ In SerialClose (main env_read_error).1
      /\ (main env_read_error).2 = Some (-1)%Z).
Proof.
  split.
  - destruct (cleanup_only_after_normal_return env_quit [] "/dev/ttyUSB0" []
                default_options (Ok Returned) (initial_state []))
      as [Hret _]; try reflexivity.
    destruct (Hret eq_refl) as (Hr & Hc & Hs & _).
    split; [exact Hr|]. split; [exact (Hc eq_refl)|exact (Hs eq_refl eq_refl)].
  - destruct (cleanup_only_after_normal_return env_read_error [] "/dev/ttyUSB0" []
                default_options
                (Raise ("Error reading serial port: Input/output error" ++ nl)%string)
                (initial_state []))
      as [_ Herr]; try reflexivity.
    destruct (Herr _ eq_refl) as (_ & Hr & Hc & Hs). by repeat split.
Defined.

(** C6, the code at the failing input: two [-c] options with four
    characters each pass the per-option check, so eight characters are
    color-coded; [h] is given slot 7, which is no index of the seven
    [Color_Codes], and printing an [h] received from the serial port
    raises [IndexError] inside the session. *)
Theorem color_slots_overflow_across_options :
  exists o,
    process_options two_color_options default_options = Continue o
    /\ size (Color_Chars o) = 8
    /\ Color_Chars o !! ord "h" = Some 7
    /\ Color_Codes !! 7 = None
    /\ (read_write_loop o [mkEvent None (Some (Ok (B "h")))] (initial_state [])).1
       = Raise ("Error writing to stdout: list index out of range" ++ nl).
Proof. eexists. repeat split; vm_compute; reflexivity. Qed.

(** * Further properties of the transformers *)

(** ** Transmit newline substitution *)

Lemma format_tx_nlsub_cons x data sub :
  format_tx_nlsub (x :: data) sub
  = (if bool_decide ([x] = Console_Newline) then sub else [x])
    ++ format_tx_nlsub data sub.
Proof. done. Qed.

Lemma format_tx_nlsub_app a b sub :
  format_tx_nlsub (a ++ b) sub = format_tx_nlsub a sub ++ format_tx_nlsub b sub.
Proof. unfold format_tx_nlsub. by rewrite map_app, concat_app. Qed.

(** X1: the transmit substitution keeps no state between calls: the
    outputs for a sequence of chunks, put together, are the output for the
    concatenated chunks, whatever the substitute. *)
Theorem tx_nlsub_boundary_invariant (chunks : list bytes) (sub : bytes) :
  concat (map (fun c => format_tx_nlsub c sub) chunks)
  = format_tx_nlsub (concat chunks) sub.
Proof.
  induction chunks as [|c chunks IH]; [done|].
  cbn [map concat]. by rewrite format_tx_nlsub_app, IH.
Qed.

(** X2: with the empty substitute (["none"]) exactly the newline
    characters are deleted, the other characters keep their order; with
    the newline itself as substitute (["lf"]) the data is unchanged. *)
Theorem tx_nlsub_none_deletes_newlines (data : bytes) :
  format_tx_nlsub data [] = filter (fun x => x <> LF) data
  /\ ~ In LF (format_tx_nlsub data [])
  /\ format_tx_nlsub data [LF] = data.
Proof.
  assert (H1 : format_tx_nlsub data [] = filter (fun x => x <> LF) data).
  { induction data as [|x data IH]; [done|].
    rewrite format_tx_nlsub_cons, IH, filter_cons.
    unfold Console_Newline.
    destruct (decide (x = LF)) as [->|Hx].
    - rewrite bool_decide_eq_true_2 by done. by rewrite decide_False by tauto.
    - rewrite bool_decide_eq_false_2 by congruence.
      by rewrite decide_True by done. }
  split; [done|]. split.
  - rewrite H1. intros Hin%list_elem_of_In%list_elem_of_filter. tauto.
  - clear H1. induction data as [|x data IH]; [done|].
    rewrite format_tx_nlsub_cons, IH. unfold Console_Newline.
    case_bool_decide as Hx; [|done]. by injection Hx as ->.
Qed.

(** X3: the length of the output: every newline of the input is traded
    for the substitute, every other character is kept. *)
Theorem tx_nlsub_length (data sub : bytes) :
  length (format_tx_nlsub data sub) + count_occ ascii_dec data LF
  = length data + count_occ ascii_dec data LF * length sub.
Proof.
  induction data as [|x data IH]; [done|].
  rewrite format_tx_nlsub_cons, length_app. cbn [count_occ length].
  unfold Console_Newline.
  destruct (ascii_dec x LF) as [->|Hx].
  - rewrite bool_decide_eq_true_2 by done. lia.
  - rewrite bool_decide_eq_false_2 by (by intros [= ->]). cbn [length]. lia.
Qed.

(** *** Loop-back through both substitutions *)

Lemma format_tx_nlsub_crlf_head data :
  head (format_tx_nlsub data [CR; LF]) <> Some LF.
Proof.
  destruct data as [|x data]; [done|].
  rewrite format_tx_nlsub_cons. unfold Console_Newline.
  case_bool_decide as Hx; [done|]. cbn [app hd_error]. intros [= ->]. by apply Hx.
Qed.

Lemma re_sub_crlf_format_tx_nlsub data :
  re_sub [CR; LF] Console_Newline (format_tx_nlsub data [CR; LF]) = data.
Proof.
  induction data as [|x data IH]; [done|].
  rewrite format_tx_nlsub_cons.
  pose proof (format_tx_nlsub_crlf_head data) as Hhead.
  unfold Console_Newline at 2.
  case_bool_decide as Hx.
  - injection Hx as ->. cbn [app]. by rewrite re_sub_crlf_match, IH.
  - cbn [app]. destruct (format_tx_nlsub data [CR; LF]) as [|y rest] eqn:E.
    + rewrite re_sub_crlf_single. by rewrite <- IH.
    + rewrite re_sub_crlf_other, IH; [done|].
      intros [_ ->]. by apply Hhead.
Qed.

(** X4: what is sent with transmit substitution ["crlf"] and comes back
    through receive substitution ["crlf"] is the data itself; only a
    carriage return at its very end is held back as carry. *)
Theorem crlf_loop_back (data : bytes) :
  data <> [] ->
  exists out carry,
    format_rx_nlsub (format_tx_nlsub data [CR; LF]) [CR; LF] [] = Some (out, carry)
    /\ out ++ carry = data
    /\ (last data <> Some CR -> carry = []).
Proof.
  intros Hne. unfold format_rx_nlsub. cbn [app].
  rewrite re_sub_crlf_format_tx_nlsub.
  destruct (last data) as [d|] eqn:Hl; [|by apply last_None in Hl].
  change (head [CR; LF]) with (Some CR). cbn [mbind option_bind].
  apply last_Some in Hl as [data' ->].
  destruct (Ascii.eqb d CR) eqn:E.
  - apply Ascii.eqb_eq in E as ->. exists data', [CR].
    rewrite removelast_last. by repeat split.
  - exists (data' ++ [d]), []. rewrite app_nil_r. by repeat split.
Qed.

Lemma crlf_loop_back_witness :
  exists out carry,
    format_rx_nlsub (format_tx_nlsub (B "a" ++ [LF] ++ B "b") [CR; LF]) [CR; LF] []
    = Some (out, carry)
    /\ out ++ carry = B "a" ++ [LF] ++ B "b"
    /\ (last (B "a" ++ [LF] ++ B "b") <> Some CR -> carry = []).
Proof. apply (crlf_loop_back (B "a" ++ [LF] ++ B "b")). discriminate. Defined.

(** ** Hexadecimal interpretation *)

(** X5: between calls the accumulator is empty or holds one hexadecimal
    digit, and from such an accumulator no sequence of chunks makes
    [format_tx_hex] raise. *)
Theorem tx_hex_accumulator_invariant (chunks : list bytes) (st : bytes) :
  txhex_ok st ->
  exists out st', feed_tx_hex chunks st = Some (out, st') /\ txhex_ok st'.
Proof.
  intros Hst. rewrite feed_tx_hex_concat. by apply format_tx_hex_total.
Qed.

Lemma tx_hex_accumulator_invariant_witness :
  exists out st',
    feed_tx_hex [B "4"; B "1z4"] (B "a") = Some (out, st') /\ txhex_ok st'.
Proof.
  apply (tx_hex_accumulator_invariant [B "4"; B "1z4"] (B "a")).
  right. exists "a"%char. split; reflexivity.
Defined.

Lemma fmt_02X_decodes x :
  is_hexdigit (hex_digit_upper (ord x / 16)) = true
  /\ is_hexdigit (hex_digit_upper (ord x mod 16)) = true
  /\ py_int (fmt_02X (ord x)) 16 ≫= chr = Some x.
Proof. destruct x as [[] [] [] [] [] [] [] []]; vm_compute; done. Qed.

Lemma format_tx_hex_fmt_02X x :
  format_tx_hex (fmt_02X (ord x)) [] = Some ([x], []).
Proof.
  destruct (fmt_02X_decodes x) as (H1 & H2 & H3).
  unfold format_tx_hex, fmt_02X in *. cbn [format_tx_hex_loop].
  fold (is_hexdigit (hex_digit_upper (ord x / 16))).
  fold (is_hexdigit (hex_digit_upper (ord x `mod` 16))).
  rewrite H1. cbn [app length]. rewrite bool_decide_eq_false_2 by done.
  rewrite H2. cbn [app length]. rewrite bool_decide_eq_true_2 by done.
  rewrite H3. done.
Qed.

(** X6: typed hexadecimal text decodes to the bytes it spells: two-digit
    tokens, each in upper or lower case, each followed by a character that
    is no hexadecimal digit (a space, a comma, a newline), give back the
    bytes and leave the accumulator empty. *)
Theorem tx_hex_decodes_separated_tokens (upper : ascii -> bool) (sep : ascii)
    (data : bytes) :
  is_hexdigit sep = false ->
  format_tx_hex (hex_tokens upper sep data) [] = Some (data, []).
Proof.
  intros Hsep. induction data as [|x data IH]; [done|].
  unfold hex_tokens in *. cbn [map concat].
  rewrite <- app_assoc, format_tx_hex_app.
  assert (Htok : format_tx_hex
                   (if upper x then fmt_02X (ord x) else fmt_02x (ord x)) []
                 = Some ([x], [])).
  { destruct (upper x);
      [apply format_tx_hex_fmt_02X | apply format_tx_hex_fmt_02x]. }
  rewrite Htok. cbn [mbind option_bind app].
  rewrite format_tx_hex_reset by done. by rewrite IH.
Qed.

Lemma tx_hex_decodes_separated_tokens_witness :
  format_tx_hex (hex_tokens (fun x => Ascii.eqb x "J") " " (B "JK")) []
  = Some (B "JK", []).
Proof.
  apply (tx_hex_decodes_separated_tokens (fun x => Ascii.eqb x "J") " " (B "JK")).
  reflexivity.
Defined.

Lemma format_tx_hex_loop_bound data : forall st acc out st',
  format_tx_hex_loop data st acc = Some (out, st') ->
  2 * length out + length st' <= 2 * length acc + length st + length data.
Proof.
  induction data as [|x data IH]; intros st acc out st'; cbn [format_tx_hex_loop].
  - intros [= <- <-]. cbn. lia.
  - set (st1 := if char_in x string_hexdigits then st ++ [x] else []).
    assert (Hst1 : length st1 <= length st + 1).
    { unfold st1. destruct (char_in _ _); [rewrite length_app|]; cbn; lia. }
    case_bool_decide as Hlen.
    + destruct (py_int st1 16 ≫= chr) as [c|]; [|done]. cbn [mbind option_bind].
      intros H%IH. rewrite length_app in H. cbn [length] in *. lia.
    + intros H%IH. cbn [length]. lia.
Qed.

(** X7: at most one byte is sent for every two characters of input: twice
    the number of decoded bytes, plus the digits still in the accumulator,
    never exceeds the number of characters taken in. *)
Theorem tx_hex_output_bound (data st out st' : bytes) :
  format_tx_hex data st = Some (out, st') ->
  2 * length out + length st' <= length st + length data.
Proof.
  intros H. apply format_tx_hex_loop_bound in H. cbn [length] in H. lia.
Qed.

Lemma tx_hex_output_bound_witness :
  2 * length (B "AB") + length (B "4") <= length (B "4") + length (B "1 42 4").
Proof.
  apply (tx_hex_output_bound (B "1 42 4") (B "4") (B "AB") (B "4")).
  reflexivity.
Defined.

(** ** Receive newline substitution, mode by mode *)

(** X8: with pattern ["\n"] nothing is altered, but a newline at the end
    of a chunk is held back until the next chunk arrives: output and
    carry together are the old carry and the data, and the carry is the
    newline exactly when the data ends in one. *)
Theorem rx_lf_holds_back_trailing_newline (data st : bytes) :
  st ++ data <> [] ->
  exists out carry,
    format_rx_nlsub data [LF] st = Some (out, carry)
    /\ out ++ carry = st ++ data
    /\ (carry = [LF] <-> last (st ++ data) = Some LF)
    /\ (carry = [] <-> last (st ++ data) <> Some LF).
Proof.
  intros Hne. unfold format_rx_nlsub. rewrite re_sub_lf.
  destruct (last (st ++ data)) as [d|] eqn:Hl; [|by apply last_None in Hl].
  change (head [LF]) with (Some LF). cbn [mbind option_bind].
  apply last_Some in Hl as [l' Hl']. rewrite Hl'.
  destruct (Ascii.eqb d LF) eqn:E.
  - apply Ascii.eqb_eq in E as ->. exists l', [LF].
    rewrite removelast_last. repeat split; try done; intros H; by destruct H.
  - exists (l' ++ [d]), []. rewrite app_nil_r.
    assert (d <> LF) by (intros ->; by rewrite Ascii.eqb_refl in E).
    repeat split; try done; congruence.
Qed.

Lemma rx_lf_holds_back_trailing_newline_witness :
  exists out carry,
    format_rx_nlsub (B "ab" ++ [LF]) [LF] [LF] = Some (out, carry)
    /\ out ++ carry = [LF] ++ B "ab" ++ [LF]
    /\ (carry = [LF] <-> last ([LF] ++ B "ab" ++ [LF]) = Some LF)
    /\ (carry = [] <-> last ([LF] ++ B "ab" ++ [LF]) <> Some LF).
Proof.
  apply (rx_lf_holds_back_trailing_newline (B "ab" ++ [LF]) [LF]). discriminate.
Defined.

(** X9: with the patterns ["\r"] and ["\r|\n"] the transformer works
    character by character and never holds anything back: every carriage
    return (and, for the second pattern, every newline) becomes a newline,
    the carry stays empty, and no carriage return is left in the output. *)
Theorem rx_cr_patterns_are_stateless (data : bytes) :
  data <> [] ->
  format_rx_nlsub data [CR] [] = Some (cr_to_lf <$> data, [])
  /\ format_rx_nlsub data (CR :: B "|" ++ [LF]) [] = Some (crorlf_to_lf <$> data, [])
  /\ ~ In CR (cr_to_lf <$> data)
  /\ ~ In CR (crorlf_to_lf <$> data).
Proof.
  intros Hne.
  assert (Hgen : forall (f : ascii -> ascii), (forall c, f c <> CR) ->
            (d ← last (f <$> data);
             if Ascii.eqb d CR then Some (removelast (f <$> data), [d])
             else Some (f <$> data, [])) = Some (f <$> data, [])).
  { intros f Hf. pose proof (last_fmap_ne f CR data Hf) as Hl.
    destruct (last (f <$> data)) as [d|] eqn:E.
    - cbn [mbind option_bind]. destruct (Ascii.eqb d CR) eqn:Ed; [|done].
      apply Ascii.eqb_eq in Ed as ->. done.
    - apply last_None in E. by destruct data. }
  split; [|split; [|split]].
  - unfold format_rx_nlsub. cbn [app]. rewrite re_sub_cr.
    change (head [CR]) with (Some CR).
    specialize (Hgen cr_to_lf cr_to_lf_not_cr).
    destruct (last (cr_to_lf <$> data)); [exact Hgen|by cbn in Hgen].
  - unfold format_rx_nlsub. cbn [app]. rewrite re_sub_crorlf.
    change (head (CR :: B "|" ++ [LF])) with (Some CR).
    specialize (Hgen crorlf_to_lf crorlf_to_lf_not_cr).
    destruct (last (crorlf_to_lf <$> data)); [exact Hgen|by cbn in Hgen].
  - intros (c & Hc & _)%list_elem_of_In%list_elem_of_fmap.
    by apply (cr_to_lf_not_cr c).
  - intros (c & Hc & _)%list_elem_of_In%list_elem_of_fmap.
    by apply (crorlf_to_lf_not_cr c).
Qed.

Lemma rx_cr_patterns_are_stateless_witness :
  format_rx_nlsub (B "a" ++ [CR]) [CR] [] = Some (cr_to_lf <$> B "a" ++ [CR], []).
Proof.
  apply (rx_cr_patterns_are_stateless (B "a" ++ [CR])). discriminate.
Defined.

(** * Further properties of the formatters *)

(** ** Loops over a buffer *)

Lemma for_each_app {A} (a b : list A) (body : A -> M unit) s :
  for_each (a ++ b) body s = (for_each a body ;;; for_each b body) s.
Proof.
  revert s. induction a as [|x a IH]; intros s; [done|].
  cbn [app for_each]. unfold bind in *.
  destruct (body x s) as [[[]|msg] s1]; [|done].
  by rewrite IH.
Qed.

(** X10: the hexadecimal dump and the full-line split view do not depend
    on how the received data is cut into buffers: printing two buffers one
    after the other is, as a computation (output, state and exceptions
    alike), printing their concatenation.  This holds with any color
    mapping and any outcome of the writes. *)
Theorem formatter_boundary_invariant (cc : gmap N nat) (d1 d2 : bytes)
    (interpret_newlines : bool) (s : State) :
  format_print_hexadecimal cc (d1 ++ d2) interpret_newlines s
  = (format_print_hexadecimal cc d1 interpret_newlines ;;;
     format_print_hexadecimal cc d2 interpret_newlines) s
  /\ format_print_split_full_lines cc (d1 ++ d2) s
     = (format_print_split_full_lines cc d1 ;;;
        format_print_split_full_lines cc d2) s.
Proof.
  split.
  - unfold format_print_hexadecimal. apply for_each_app.
  - unfold format_print_split_full_lines, format_print_split.
    pose proof (for_each_app d1 d2) as Happ.
    unfold bind, ret in *. rewrite Happ.
    destruct (for_each d1 _ s) as [[[]|msg] s1]; [|done].
    by destruct (for_each d2 _ s1) as [[[]|msg] s2].
Qed.

(** ** Stepping through the monad *)

Lemma bind_Ok {A C} (m : M A) (k : A -> M C) s c s' :
  bind m k s = (Ok c, s') ->
  exists a s1, m s = (Ok a, s1) /\ k a s1 = (Ok c, s').
Proof.
  unfold bind. destruct (m s) as [[a|msg] s1]; [eauto|done].
Qed.

Lemma bind_ret {A C} (a : A) (k : A -> M C) s : bind (ret a) k s = k a s.
Proof. done. Qed.

Lemma bind_modify {C} (f : State -> State) (k : unit -> M C) s :
  bind (modify f) k s = k tt (f s).
Proof. done. Qed.

Lemma bind_get {A C} (proj : State -> A) (k : A -> M C) s :
  bind (get proj) k s = k (proj s) s.
Proof. done. Qed.

Lemma bind_run {A C} (m : M A) (k : A -> M C) s a s1 :
  m s = (Ok a, s1) -> bind m k s = k a s1.
Proof. unfold bind. by intros ->. Qed.

Lemma fd_write_complete f data s :
  write_script s = [] ->
  fd_write f data s = (Ok (length data), deliver f data data [] s).
Proof. unfold fd_write. by intros ->. Qed.

Lemma io_only_ret {A} (a : A) : io_only (ret a).
Proof. by intros s r s' [= <- <-]. Qed.

Lemma io_only_raise {A} msg : io_only (@raise A msg).
Proof. by intros s r s' [= <- <-]. Qed.

Lemma io_only_bind {A C} (m : M A) (k : A -> M C) :
  io_only m -> (forall a, io_only (k a)) -> io_only (bind m k).
Proof.
  intros Hm Hk s r s'. unfold bind.
  destruct (m s) as [[a|msg] s1] eqn:E.
  - intros H. rewrite (Hk a _ _ _ H). by apply Hm in E.
  - intros [= <- <-]. by apply Hm in E.
Qed.

Lemma io_only_fd_write f data : io_only (fd_write f data).
Proof.
  intros s r s'. unfold fd_write.
  destruct (write_script s) as [|[n|msg] script]; by intros [= <- <-].
Qed.

Lemma io_only_color_coded cc x token : io_only (color_coded cc x token).
Proof.
  unfold color_coded. destruct (cc !! ord x) as [slot|]; [|apply io_only_ret].
  destruct (Color_Codes !! slot); [apply io_only_ret|apply io_only_raise].
Qed.

Lemma io_only_for_each {A} (l : list A) (body : A -> M unit) :
  (forall x, io_only (body x)) -> io_only (for_each l body).
Proof.
  intros Hb. induction l as [|x l IH]; [apply io_only_ret|].
  cbn [for_each]. apply io_only_bind; [apply Hb|by intros _].
Qed.

Lemma io_only_split_print cc byte_list : io_only (split_print cc byte_list).
Proof.
  unfold split_print.
  repeat first
    [ apply io_only_bind; [|intros ?]
    | apply io_only_for_each; intros ?
    | apply io_only_fd_write
    | apply io_only_color_coded
    | apply io_only_ret
    | apply io_only_raise
    | match goal with
      | |- io_only (match ?x with _ => _ end) => destruct x
      end ].
Qed.

(** ** The column cursor of the hexadecimal dump *)

Lemma io_only_cursor {A} (m : M A) s r s' :
  m s = (r, s') -> io_only m -> stdout_cursor_x s' = stdout_cursor_x s.
Proof. intros H Hm. apply Hm in H. unfold globals in H. congruence. Qed.

Lemma hex_body_cursor cc nl x s s' k :
  (out <- color_coded cc x (fmt_02x (ord x)) ;;
   fd_write stdout_fd out ;;;
   modify (fun s => set_stdout_cursor_x (stdout_cursor_x s + 1) s) ;;;
   cursor <- get stdout_cursor_x ;;
   (if bool_decide (cursor = Hexadecimal_Columns / 2) then
      fd_write stdout_fd (B "  ") ;;; ret tt
    else if bool_decide (cursor = Hexadecimal_Columns) then
      fd_write stdout_fd [LF] ;;; modify (set_stdout_cursor_x 0)
    else fd_write stdout_fd (B " ") ;;; ret tt) ;;;
   if bool_decide ([x] = Console_Newline) && nl then
     fd_write stdout_fd Console_Newline ;;; modify (set_stdout_cursor_x 0)
   else ret tt) s = (Ok k, s') ->
  stdout_cursor_x s < Hexadecimal_Columns ->
  stdout_cursor_x s' < Hexadecimal_Columns
  /\ (bool_decide ([x] = Console_Newline) && nl = true -> stdout_cursor_x s' = 0).
Proof.
  intros H Hc.
  apply bind_Ok in H as (out & s1 & H1 & H).
  apply io_only_cursor in H1; [|apply io_only_color_coded].
  apply bind_Ok in H as (n1 & s2 & H2 & H).
  apply io_only_cursor in H2; [|apply io_only_fd_write].
  apply bind_Ok in H as ([] & s3 & [= <-] & H).
  apply bind_Ok in H as (c & s4 & [= <- <-] & H).
  apply bind_Ok in H as ([] & s5 & H5 & H).
  assert (Hc5 : stdout_cursor_x s5 < Hexadecimal_Columns).
  { change (stdout_cursor_x (set_stdout_cursor_x (stdout_cursor_x s2 + 1) s2))
      with (stdout_cursor_x s2 + 1) in H5.
    set (s3 := set_stdout_cursor_x _ s2) in H5.
    assert (Hc3 : stdout_cursor_x s3 = stdout_cursor_x s + 1)
      by (cbn; congruence).
    clearbody s3. unfold Hexadecimal_Columns in *.
    destruct (bool_decide (stdout_cursor_x s2 + 1 = 16 / 2)) eqn:E8;
      [|destruct (bool_decide (stdout_cursor_x s2 + 1 = 16)) eqn:E16].
    - apply bool_decide_eq_true in E8. cbn in E8.
      apply bind_Ok in H5 as (n & s6 & H6 & [= <-]).
      apply io_only_cursor in H6; [lia|apply io_only_fd_write].
    - apply bind_Ok in H5 as (n & s6 & _ & [= <-]). cbn. lia.
    - apply bool_decide_eq_false in E16.
      apply bind_Ok in H5 as (n & s6 & H6 & [= <-]).
      apply io_only_cursor in H6; [lia|apply io_only_fd_write]. }
  destruct (bool_decide ([x] = Console_Newline) && nl).
  - apply bind_Ok in H as (n & s6 & _ & [= _ <-]).
    unfold Hexadecimal_Columns. cbn. split; [lia|done].
  - injection H as _ <-. by split.
Qed.

(** X11: the column cursor stays a column: if it is below the number of
    columns before a buffer is printed in a hexadecimal mode and the
    printing raises nothing, it is below the number of columns afterwards,
    with any color mapping and also when writes are short.  In the mode
    that interprets newlines the cursor is at column 0 after a buffer
    that ends in a newline. *)
Theorem hex_cursor_stays_in_range (cc : gmap N nat) (data : bytes)
    (interpret_newlines : bool) (s s' : State) :
  stdout_cursor_x s < Hexadecimal_Columns ->
  format_print_hexadecimal cc data interpret_newlines s = (Ok tt, s') ->
  stdout_cursor_x s' < Hexadecimal_Columns
  /\ (interpret_newlines = true -> last data = Some LF ->
      stdout_cursor_x s' = 0).
Proof.
  unfold format_print_hexadecimal. revert s.
  induction data as [|x data IH]; intros s Hc H.
  - injection H as <-. by split.
  - cbn [for_each] in H. apply bind_Ok in H as ([] & s1 & H1 & H).
    apply hex_body_cursor in H1 as [Hc1 Hnl]; [|done].
    destruct (IH s1 Hc1 H) as [Hc' Hlast]. split; [done|].
    intros -> Hl. destruct data as [|y data].
    + injection Hl as ->. injection H as <-. by apply Hnl.
    + rewrite last_cons_cons in Hl. by apply Hlast.
Qed.

Lemma hex_cursor_stays_in_range_witness :
  stdout_cursor_x
    (format_print_hexadecimal ∅ (B "ab" ++ [LF]) true
       (initial_state [Accepts 1])).2 < Hexadecimal_Columns.
Proof.
  apply (hex_cursor_stays_in_range ∅ (B "ab" ++ [LF]) true
           (initial_state [Accepts 1])).
  - unfold Hexadecimal_Columns. cbn. lia.
  - vm_compute. reflexivity.
Defined.

(** ** Rows of the hexadecimal dump *)

Lemma hex_render_cons c x d :
  hex_render c (x :: d)
  = (fmt_02x (ord x) ++ hex_separator (c + 1)
     ++ (hex_render (hex_next_cursor (c + 1)) d).1,
     (hex_render (hex_next_cursor (c + 1)) d).2).
Proof.
  cbn [hex_render]. unfold hex_separator, hex_next_cursor.
  assert (Hc : (if bool_decide (c + 1 = Hexadecimal_Columns / 2) then c + 1
                else if bool_decide (c + 1 = Hexadecimal_Columns) then 0
                     else c + 1)
               = (if bool_decide (c + 1 = Hexadecimal_Columns) then 0 else c + 1)).
  { unfold Hexadecimal_Columns. repeat case_bool_decide; cbn in *; lia. }
  rewrite Hc. by destruct (hex_render _ d).
Qed.

Lemma hex_render_app c a b :
  hex_render c (a ++ b)
  = ((hex_render c a).1 ++ (hex_render (hex_render c a).2 b).1,
     (hex_render (hex_render c a).2 b).2).
Proof.
  revert c. induction a as [|x a IH]; intros c;
    [cbn; by destruct (hex_render c b)|].
  cbn [app]. rewrite !hex_render_cons, IH. cbn [fst snd].
  by rewrite <- !app_assoc.
Qed.

(** Tokens that neither end a group nor a row are followed by one
    space. *)
Lemma hex_render_below c l :
  c + length l < Hexadecimal_Columns / 2
  \/ (Hexadecimal_Columns / 2 <= c /\ c + length l < Hexadecimal_Columns) ->
  hex_render c l
  = (concat (map (fun x => fmt_02x (ord x) ++ B " ") l), c + length l).
Proof.
  unfold Hexadecimal_Columns. change (16 / 2) with 8.
  revert c. induction l as [|x l IH]; intros c Hc.
  - cbn. by rewrite Nat.add_0_r.
  - cbn [length] in Hc. rewrite hex_render_cons.
    unfold hex_separator, hex_next_cursor, Hexadecimal_Columns.
    change (16 / 2) with 8.
    rewrite !bool_decide_eq_false_2 by lia.
    rewrite IH by lia. cbn [fst snd map concat length].
    rewrite <- !app_assoc. f_equal. lia.
Qed.

Lemma join_snoc sep parts p :
  join sep (parts ++ [p]) = concat (map (fun q => q ++ sep) parts) ++ p.
Proof.
  induction parts as [|q parts IH]; [done|].
  cbn [app map concat]. rewrite <- app_assoc, <- IH.
  destruct parts; cbn [app join]; by rewrite <- ?app_assoc.
Qed.

Lemma row_groups (row : bytes) :
  length row = Hexadecimal_Columns ->
  exists a x b y,
    row = a ++ x :: b ++ [y] /\ length a = 7 /\ length b = 7.
Proof.
  intros Hlen.
  do 16 (destruct row as [|? row]; [done|]). destruct row; [|done].
  by eexists [_; _; _; _; _; _; _], _, [_; _; _; _; _; _; _], _.
Qed.

Lemma hex_render_row row rest :
  length row = Hexadecimal_Columns ->
  hex_render 0 (row ++ rest)
  = (hex_row_text row ++ (hex_render 0 rest).1, (hex_render 0 rest).2).
Proof.
  intros (a & x & b & y & -> & Ha & Hb)%row_groups.
  unfold hex_row_text.
  replace (take 8 (a ++ x :: b ++ [y])) with (a ++ [x]).
  2:{ change 8 with (7 + 1). by rewrite take_app_add'. }
  replace (drop 8 (a ++ x :: b ++ [y])) with (b ++ [y]).
  2:{ change 8 with (7 + 1). by rewrite drop_app_add'. }
  rewrite !map_app. cbn [map]. rewrite !join_snoc, !map_map.
  rewrite <- !app_assoc. cbn [app]. rewrite <- !app_assoc. cbn [app].
  rewrite hex_render_app, hex_render_below
    by (unfold Hexadecimal_Columns; change (16 / 2) with 8; lia).
  cbn [fst snd]. rewrite Ha, hex_render_cons.
  change (hex_next_cursor (0 + 7 + 1)) with 8.
  change (hex_separator (0 + 7 + 1)) with (B "  ").
  rewrite hex_render_app, (hex_render_below 8)
    by (unfold Hexadecimal_Columns; change (16 / 2) with 8; lia).
  cbn [fst snd]. rewrite Hb, hex_render_cons.
  change (hex_next_cursor (8 + 7 + 1)) with 0.
  change (hex_separator (8 + 7 + 1)) with [LF].
  cbn [fst snd]. by rewrite <- ?app_assoc.
Qed.

Lemma hex_render_rows rows :
  Forall (fun row => length row = Hexadecimal_Columns) rows ->
  hex_render 0 (concat rows) = (concat (map hex_row_text rows), 0).
Proof.
  induction 1 as [|row rows Hrow _ IH]; [done|].
  cbn [concat map]. by rewrite hex_render_row, IH.
Qed.

(** X12: the layout of the hexadecimal dump, row by row: from column 0,
    without color-coded characters and with complete writes, any number of
    full rows of sixteen bytes is printed as that many lines, each with
    two groups of eight two-digit tokens, one space between tokens, two
    spaces between the groups and a newline at the end; the cursor is back
    at column 0. *)
Theorem hex_dump_rows (rows : list bytes) (s0 : State) :
  Forall (fun row => length row = Hexadecimal_Columns) rows ->
  stdout_cursor_x s0 = 0 ->
  write_script s0 = [] ->
  exists s1,
    format_print_hexadecimal ∅ (concat rows) false s0 = (Ok tt, s1)
    /\ console_sink s1 = console_sink s0 ++ concat (map hex_row_text rows)
    /\ stdout_cursor_x s1 = 0.
Proof.
  intros Hrows Hc Hw.
  destruct (format_print_hexadecimal_plain (concat rows) s0 Hw)
    as (s1 & Hrun & Hcs & Hx & _).
  exists s1. rewrite Hc, hex_render_rows in * by done. done.
Qed.

Lemma hex_dump_rows_witness :
  exists s1,
    format_print_hexadecimal ∅ (concat [B "0123456789abcdef"; B "ghijklmnopqrstuv"])
      false (initial_state [])
    = (Ok tt, s1)
    /\ console_sink s1
       = console_sink (initial_state [])
         ++ concat (map hex_row_text [B "0123456789abcdef"; B "ghijklmnopqrstuv"])
    /\ stdout_cursor_x s1 = 0.
Proof.
  apply (hex_dump_rows [B "0123456789abcdef"; B "ghijklmnopqrstuv"]
           (initial_state [])).
  - repeat constructor.
  - reflexivity.
  - reflexivity.
Defined.

(** ** Printing with complete writes *)

Lemma prints_ret : prints (ret tt) [].
Proof. intros s Hs. exists s. rewrite app_nil_r. by repeat split. Qed.

Lemma prints_eq m t t' : t = t' -> prints m t -> prints m t'.
Proof. by intros <-. Qed.

Lemma prints_write_then o rest t :
  prints rest t -> prints (fd_write stdout_fd o ;;; rest) (o ++ t).
Proof.
  intros Hrest s Hs. unfold bind, fd_write. rewrite Hs.
  destruct (Hrest (deliver stdout_fd o o [] s) eq_refl)
    as (s' & -> & Hc & Hser & Hg & Hw).
  exists s'. cbn in *. rewrite Hc, app_assoc. by repeat split.
Qed.

Lemma prints_seq m1 m2 t1 t2 :
  prints m1 t1 -> prints m2 t2 -> prints (m1 ;;; m2) (t1 ++ t2).
Proof.
  intros H1 H2 s Hs. unfold bind.
  destruct (H1 s Hs) as (s1 & -> & Hc1 & Hser1 & Hg1 & Hw1).
  destruct (H2 s1 Hw1) as (s2 & -> & Hc2 & Hser2 & Hg2 & Hw2).
  exists s2. rewrite Hc2, Hc1, app_assoc. repeat split; congruence.
Qed.

Lemma prints_for_each_in {A} (l : list A) (body : A -> M unit) (g : A -> bytes) :
  (forall x, In x l -> prints (body x) (g x)) ->
  prints (for_each l body) (concat (map g l)).
Proof.
  induction l as [|x l IH]; intros Hb; [apply prints_ret|].
  cbn [for_each map concat]. apply prints_seq.
  - apply Hb. by left.
  - apply IH. intros y Hy. apply Hb. by right.
Qed.

Lemma color_coded_ok cc x token :
  palette_ok cc -> color_coded cc x token = ret (colored cc x token).
Proof.
  intros Hcc. unfold color_coded, colored.
  destruct (cc !! ord x) as [slot|] eqn:E; [|done].
  apply Hcc in E. apply lookup_lt_is_Some in E as [code ->]. done.
Qed.

Lemma prints_color_then cc x token rest t :
  palette_ok cc -> prints rest t ->
  prints (out <- color_coded cc x token ;; fd_write stdout_fd out ;;; rest)
         (colored cc x token ++ t).
Proof.
  intros Hcc Hrest. rewrite color_coded_ok by done.
  by apply prints_write_then.
Qed.

Lemma palette_ok_empty : palette_ok ∅.
Proof. intros k slot. by rewrite lookup_empty. Qed.

Lemma colored_empty x token : colored ∅ x token = token.
Proof. unfold colored. by rewrite lookup_empty. Qed.

(** ** Raw output *)

(** X13: raw output with complete writes, for a color mapping whose slots
    are indices of the palette: nothing is raised, every received byte
    reaches the console in order, a color-coded byte between its color
    code and the reset code, and nothing else is written.  Without
    color-coded characters the console receives the buffer as it is. *)
Theorem raw_output_is_pass_through (cc : gmap N nat) (data : bytes) (s : State) :
  palette_ok cc ->
  write_script s = [] ->
  exists s',
    format_print_raw cc data s = (Ok tt, s')
    /\ console_sink s' = console_sink s ++ concat (map (fun x => colored cc x [x]) data)
    /\ (size cc = 0 -> console_sink s' = console_sink s ++ data)
    /\ serial_sink s' = serial_sink s
    /\ globals s' = globals s.
Proof.
  intros Hcc Hs.
  assert (Hplain : size cc = 0 -> concat (map (fun x => colored cc x [x]) data) = data).
  { intros ->%map_size_empty_inv. induction data as [|x data IH]; [done|].
    cbn [map concat]. by rewrite colored_empty, IH. }
  assert (Hp : prints (format_print_raw cc data)
                 (concat (map (fun x => colored cc x [x]) data))).
  { unfold format_print_raw. case_bool_decide as Hsize.
    - rewrite (Hplain Hsize).
      apply (prints_eq _ (data ++ [])); [apply app_nil_r|].
      apply prints_write_then, prints_ret.
    - apply prints_for_each_in. intros x _.
      apply (prints_eq _ (colored cc x [x] ++ [])); [apply app_nil_r|].
      by apply prints_color_then; [|apply prints_ret]. }
  destruct (Hp s Hs) as (s' & Hrun & Hc & Hser & Hg & _).
  exists s'. repeat split; try done. intros Hsize. by rewrite Hc, Hplain.
Qed.

Lemma raw_output_is_pass_through_witness :
  exists s',
    format_print_raw ∅ (B "abc") (initial_state []) = (Ok tt, s')
    /\ console_sink s' = B "abc".
Proof.
  destruct (raw_output_is_pass_through ∅ (B "abc") (initial_state []))
    as (s' & Hrun & _ & Hc & _).
  - apply palette_ok_empty.
  - reflexivity.
  - exists s'. split; [exact Hrun|]. by apply Hc.
Defined.

(** ** The split view *)

Lemma indexed_chars (f : ascii -> ascii) (row : bytes) : forall pre,
  concat (map (fun i => match (pre ++ row) !! i with
                        | Some x => [f x]
                        | None => []
                        end) (seq (length pre) (length row)))
  = map f row.
Proof.
  induction row as [|x row IH]; intros pre; [done|].
  cbn [length seq map concat]. rewrite list_lookup_middle by done.
  cbn [app]. f_equal.
  specialize (IH (pre ++ [x])).
  rewrite <- app_assoc, length_app, Nat.add_1_r in IH. exact IH.
Qed.

Lemma split_print_plain row : prints (split_print ∅ row) (split_row_text row).
Proof.
  unfold split_print, split_row_text, split_hex_text.
  rewrite <- !app_assoc.
  apply prints_seq.
  { apply prints_for_each_in. intros i [_ Hi]%in_seq.
    destruct (lookup_lt_is_Some_2 row i Hi) as [x ->].
    apply (prints_eq _ (colored ∅ x (fmt_02x (ord x)) ++
             (if bool_decide (i + 1 = Hexadecimal_Columns / 2)
              then B "  " else B " "))); [by rewrite colored_empty|].
    apply prints_color_then; [apply palette_ok_empty|].
    case_bool_decide;
      (eapply prints_eq; [|apply prints_write_then, prints_ret]);
      apply app_nil_r. }
  apply prints_seq.
  { repeat case_bool_decide;
      try (eapply prints_eq; [|apply prints_write_then, prints_ret];
           apply app_nil_r).
    apply prints_ret. }
  apply prints_write_then.
  rewrite <- (indexed_chars printable_or_dot row []).
  apply prints_seq.
  { apply prints_for_each_in. intros i [_ Hi]%in_seq. cbn [app].
    destruct (lookup_lt_is_Some_2 row i Hi) as [x ->].
    apply (prints_eq _ (colored ∅ x [printable_or_dot x] ++ []));
      [by rewrite colored_empty|].
    apply prints_color_then; [apply palette_ok_empty|apply prints_ret]. }
  eapply prints_eq; [|apply prints_write_then, prints_ret].
  apply app_nil_r.
Qed.

Lemma split_hex_text_length row :
  length row <= Hexadecimal_Columns -> length (split_hex_text row) = 49.
Proof.
  unfold Hexadecimal_Columns. intros Hlen.
  do 17 (destruct row as [|? row]; [vm_compute; reflexivity|]).
  cbn in Hlen. lia.
Qed.

(** X14: the layout of a row of the split view, for a window of at most
    sixteen bytes, without color-coded characters and with complete
    writes: the two-digit tokens with their separators, padded so that the
    hexadecimal part is 49 characters wide whatever the number of bytes,
    then the ASCII part between bars, a byte outside the printable ASCII
    characters shown as a dot.  The module-level variables are not
    touched. *)
Theorem split_print_layout (row : bytes) (s : State) :
  length row <= Hexadecimal_Columns ->
  write_script s = [] ->
  exists s',
    split_print ∅ row s = (Ok tt, s')
    /\ console_sink s'
       = console_sink s ++ split_hex_text row ++ B " |"
         ++ map printable_or_dot row ++ B "|"
    /\ length (split_hex_text row) = 49
    /\ globals s' = globals s.
Proof.
  intros Hlen Hs.
  destruct (split_print_plain row s Hs) as (s' & Hrun & Hc & _ & Hg & _).
  exists s'. repeat split; try done. by apply split_hex_text_length.
Qed.

Lemma split_print_layout_witness :
  exists s',
    split_print ∅ (B "A" ++ [LF]) (initial_state []) = (Ok tt, s')
    /\ console_sink s'
       = B "41 0a " ++ replicate 43 " "%char ++ B " |A.|".
Proof.
  destruct (split_print_layout (B "A" ++ [LF]) (initial_state []))
    as (s' & Hrun & Hc & _).
  - unfold Hexadecimal_Columns. cbn. lia.
  - reflexivity.
  - exists s'. split; [exact Hrun|]. rewrite Hc. vm_compute. reflexivity.
Defined.

(** The body of the loop of [format_print_split]. *)
Local Abbreviation split_body cc :=
  (fun x : ascii =>
     modify (fun s => set_stdout_split_bytes (stdout_split_bytes s ++ [x]) s) ;;;
     window <- get stdout_split_bytes ;;
     if bool_decide (length window = Hexadecimal_Columns) then
       split_print cc window ;;;
       fd_write stdout_fd Console_Newline ;;;
       modify (set_stdout_split_bytes [])
     else ret tt).

Lemma set_stdout_split_bytes_twice v w s :
  set_stdout_split_bytes v (set_stdout_split_bytes w s)
  = set_stdout_split_bytes v s.
Proof. done. Qed.

Lemma set_stdout_split_bytes_same s :
  set_stdout_split_bytes (stdout_split_bytes s) s = s.
Proof. by destruct s. Qed.

Lemma split_loop_buffers cc data : forall s,
  length (stdout_split_bytes s) + length data < Hexadecimal_Columns ->
  for_each data (split_body cc) s
  = (Ok tt, set_stdout_split_bytes (stdout_split_bytes s ++ data) s).
Proof.
  induction data as [|x data IH]; intros s Hlen.
  - cbn [for_each]. by rewrite app_nil_r, set_stdout_split_bytes_same.
  - cbn [for_each length] in *.
    set (s1 := set_stdout_split_bytes (stdout_split_bytes s ++ [x]) s).
    assert (Hbody : split_body cc x s = (Ok tt, s1)).
    { rewrite bind_modify, bind_get. fold s1.
      change (stdout_split_bytes s1) with (stdout_split_bytes s ++ [x]).
      by rewrite bool_decide_eq_false_2 by (rewrite length_app; cbn; lia). }
    rewrite (bind_run _ _ _ _ _ Hbody), IH.
    + change (stdout_split_bytes s1) with (stdout_split_bytes s ++ [x]).
      unfold s1. by rewrite set_stdout_split_bytes_twice, <- app_assoc.
    + change (stdout_split_bytes s1) with (stdout_split_bytes s ++ [x]).
      rewrite length_app. cbn. lia.
Qed.

(** X15: the full-line split view says nothing while a row is being
    collected: as long as the pending window and the new buffer together
    stay below sixteen bytes, no write call is made, with any color
    mapping; the buffer is appended to the window and the rest of the
    state is as before. *)
Theorem splitfull_collects_silently (cc : gmap N nat) (data : bytes) (s : State) :
  length (stdout_split_bytes s) + length data < Hexadecimal_Columns ->
  format_print_split_full_lines cc data s
  = (Ok tt, set_stdout_split_bytes (stdout_split_bytes s ++ data) s).
Proof.
  intros Hlen. unfold format_print_split_full_lines, format_print_split.
  rewrite bind_ret.
  by rewrite (bind_run _ _ _ _ _ (split_loop_buffers cc data s Hlen)).
Qed.

Lemma splitfull_collects_silently_witness :
  format_print_split_full_lines ∅ (B "abc") (initial_state [WriteFails "EIO"])
  = (Ok tt,
     set_stdout_split_bytes
       (stdout_split_bytes (initial_state [WriteFails "EIO"]) ++ B "abc")
       (initial_state [WriteFails "EIO"])).
Proof.
  apply (splitfull_collects_silently ∅ (B "abc") (initial_state [WriteFails "EIO"])).
  unfold Hexadecimal_Columns. cbn. lia.
Defined.

(** The first statement of [format_print_split]. *)
Local Abbreviation split_erase partial_print :=
  (if (partial_print : bool) then
     pending <- get stdout_split_bytes ;;
     if bool_decide (0 < length pending) then
       fd_write stdout_fd [CR] ;;; ret tt
     else ret tt
   else ret tt).

Lemma split_erase_run partial_print s :
  write_script s = [] ->
  exists s1,
    split_erase partial_print s = (Ok tt, s1)
    /\ console_sink s1
       = console_sink s
         ++ (if partial_print && bool_decide (0 < length (stdout_split_bytes s))
             then [CR] else [])
    /\ stdout_split_bytes s1 = stdout_split_bytes s
    /\ write_script s1 = [].
Proof.
  intros Hs. destruct partial_print; cbn [andb].
  - rewrite bind_get. case_bool_decide.
    + rewrite (bind_run _ _ _ _ _ (fd_write_complete _ _ _ Hs)).
      eexists. split; [reflexivity|]. by cbn.
    + exists s. by rewrite app_nil_r.
  - exists s. by rewrite app_nil_r.
Qed.

Lemma split_loop_completes data s :
  write_script s = [] ->
  data <> [] ->
  length (stdout_split_bytes s) + length data = Hexadecimal_Columns ->
  exists s',
    for_each data (split_body ∅) s = (Ok tt, s')
    /\ console_sink s'
       = console_sink s ++ split_row_text (stdout_split_bytes s ++ data)
         ++ Console_Newline
    /\ stdout_split_bytes s' = []
    /\ serial_sink s' = serial_sink s
    /\ write_script s' = [].
Proof.
  intros Hs Hne Hlen.
  destruct (exists_last Hne) as (d & x & ->).
  rewrite length_app in Hlen. cbn [length] in Hlen.
  rewrite for_each_app.
  rewrite (bind_run _ _ _ _ _ (split_loop_buffers ∅ d s ltac:(lia))).
  set (s1 := set_stdout_split_bytes (stdout_split_bytes s ++ d) s).
  set (window := stdout_split_bytes s ++ d ++ [x]).
  set (s2 := set_stdout_split_bytes window s1).
  assert (Hs2 : write_script s2 = []) by done.
  destruct (split_print_plain window s2 Hs2)
    as (s3 & Hrun3 & Hc3 & Hser3 & Hg3 & Hw3).
  assert (Hbody : exists s',
            split_body ∅ x s1 = (Ok tt, s')
            /\ console_sink s' = console_sink s3 ++ Console_Newline
            /\ stdout_split_bytes s' = []
            /\ serial_sink s' = serial_sink s3
            /\ write_script s' = []).
  { rewrite bind_modify.
    change (set_stdout_split_bytes (stdout_split_bytes s1 ++ [x]) s1)
      with (set_stdout_split_bytes ((stdout_split_bytes s ++ d) ++ [x]) s1).
    rewrite <- app_assoc. fold window. fold s2.
    rewrite bind_get.
    change (stdout_split_bytes s2) with window.
    rewrite bool_decide_eq_true_2
      by (unfold window; rewrite !length_app; cbn; lia).
    rewrite (bind_run _ _ _ _ _ Hrun3).
    rewrite (bind_run _ _ _ _ _ (fd_write_complete _ _ _ Hw3)).
    eexists. split; [reflexivity|]. by cbn. }
  destruct Hbody as (s' & Hbody & Hc & Hwin & Hser & Hw).
  cbn [for_each]. rewrite (bind_run _ _ _ _ _ Hbody).
  exists s'. split; [done|]. rewrite Hc, Hc3, Hser, Hser3.
  repeat split; try done. by rewrite <- app_assoc.
Qed.

(** X16: a buffer that completes the pending window to exactly sixteen
    bytes makes both split views print that row and a newline and empty
    the window (no color-coded characters, complete writes); the view
    with live partial rows first writes a carriage return when the window
    was not empty, and draws no partial row behind the newline. *)
Theorem split_view_completes_row (data : bytes) (partial_print : bool) (s : State) :
  write_script s = [] ->
  data <> [] ->
  length (stdout_split_bytes s) + length data = Hexadecimal_Columns ->
  exists s',
    format_print_split ∅ data partial_print s = (Ok tt, s')
    /\ console_sink s'
       = console_sink s
         ++ (if partial_print && bool_decide (0 < length (stdout_split_bytes s))
             then [CR] else [])
         ++ split_row_text (stdout_split_bytes s ++ data) ++ Console_Newline
    /\ stdout_split_bytes s' = [].
Proof.
  intros Hs Hne Hlen. unfold format_print_split.
  destruct (split_erase_run partial_print s Hs) as (s1 & Hrun1 & Hc1 & Hw1 & Hs1).
  rewrite (bind_run _ _ _ _ _ Hrun1).
  rewrite <- Hw1 in Hlen.
  destruct (split_loop_completes data s1 Hs1 Hne Hlen)
    as (s' & Hrun & Hc & Hwin & _ & _).
  rewrite (bind_run _ _ _ _ _ Hrun).
  assert (Hlast : (if partial_print
                   then window <- get stdout_split_bytes ;;
                        if bool_decide (0 < length window)
                        then split_print ∅ window else ret tt
                   else ret tt) s' = (Ok tt, s')).
  { destruct partial_print; [|done].
    rewrite bind_get, Hwin. by rewrite bool_decide_eq_false_2 by (cbn; lia). }
  rewrite Hlast. exists s'. split; [done|]. split; [|done].
  by rewrite Hc, Hc1, Hw1, <- !app_assoc.
Qed.

Lemma split_view_completes_row_witness :
  exists s',
    format_print_split ∅ (B "0123456789abcdef") true (initial_state [])
    = (Ok tt, s')
    /\ console_sink s'
       = B "30 31 32 33 34 35 36 37  38 39 61 62 63 64 65 66  |0123456789abcdef|"
         ++ [LF]
    /\ stdout_split_bytes s' = [].
Proof.
  destruct (split_view_completes_row (B "0123456789abcdef") true (initial_state []))
    as (s' & Hrun & Hc & Hw).
  - reflexivity.
  - discriminate.
  - reflexivity.
  - exists s'. split; [exact Hrun|]. split; [|exact Hw].
    rewrite Hc. vm_compute. reflexivity.
Defined.

(** X17: the live partial row of the split view: while the window stays
    below sixteen bytes, each buffer is appended to it and the whole
    window is drawn again, behind a carriage return when a partial row is
    already on the screen; nothing is drawn while the window is empty (no
    color-coded characters, complete writes). *)
Theorem split_view_redraws_partial_row (data : bytes) (s : State) :
  write_script s = [] ->
  length (stdout_split_bytes s) + length data < Hexadecimal_Columns ->
  exists s',
    format_print_split ∅ data true s = (Ok tt, s')
    /\ console_sink s'
       = console_sink s
         ++ (if bool_decide (0 < length (stdout_split_bytes s)) then [CR] else [])
         ++ (if bool_decide (0 < length (stdout_split_bytes s ++ data))
             then split_row_text (stdout_split_bytes s ++ data) else [])
    /\ stdout_split_bytes s' = stdout_split_bytes s ++ data.
Proof.
  intros Hs Hlen. unfold format_print_split.
  assert (Hfinish : forall s1,
            write_script s1 = [] ->
            stdout_split_bytes s1 = stdout_split_bytes s ->
            exists s',
              (for_each data (split_body ∅) ;;;
               window <- get stdout_split_bytes ;;
               if bool_decide (0 < length window)
               then split_print ∅ window else ret tt) s1 = (Ok tt, s')
              /\ console_sink s'
                 = console_sink s1
                   ++ (if bool_decide (0 < length (stdout_split_bytes s ++ data))
                       then split_row_text (stdout_split_bytes s ++ data)
                       else [])
              /\ stdout_split_bytes s' = stdout_split_bytes s ++ data).
  { intros s1 Hs1 Hw1.
    assert (Hlen1 : length (stdout_split_bytes s1) + length data
                    < Hexadecimal_Columns) by (by rewrite Hw1).
    rewrite (bind_run _ _ _ _ _ (split_loop_buffers ∅ data s1 Hlen1)).
    rewrite bind_get, Hw1.
    change (stdout_split_bytes (set_stdout_split_bytes ?v s1)) with v.
    case_bool_decide.
    - destruct (split_print_plain (stdout_split_bytes s ++ data)
                  (set_stdout_split_bytes (stdout_split_bytes s ++ data) s1) Hs1)
        as (s' & -> & Hc & _ & Hg & _).
      exists s'. split; [done|]. split; [done|].
      unfold globals in Hg. by injection Hg as _ _ _ ->.
    - eexists. split; [reflexivity|]. cbn. by rewrite app_nil_r. }
  destruct (split_erase_run true s Hs) as (s1 & Hrun1 & Hc1 & Hw1 & Hs1).
  rewrite (bind_run _ _ _ _ _ Hrun1).
  destruct (Hfinish s1 Hs1 Hw1) as (s' & -> & Hc & Hwin).
  exists s'. split; [done|]. split; [|done].
  by rewrite Hc, Hc1, <- !app_assoc.
Qed.

Lemma split_view_redraws_partial_row_witness :
  exists s',
    format_print_split ∅ (B "B")
      true (set_stdout_split_bytes (B "A") (initial_state []))
    = (Ok tt, s')
    /\ console_sink s' = [CR] ++ B "41 42 " ++ replicate 43 " "%char ++ B " |AB|"
    /\ stdout_split_bytes s' = B "AB".
Proof.
  destruct (split_view_redraws_partial_row (B "B")
              (set_stdout_split_bytes (B "A") (initial_state [])))
    as (s' & Hrun & Hc & Hw).
  - reflexivity.
  - unfold Hexadecimal_Columns. cbn. lia.
  - exists s'. split; [exact Hrun|]. split; [|exact Hw].
    rewrite Hc. vm_compute. reflexivity.
Defined.

Lemma io_only_window {A} (m : M A) s r s' :
  m s = (r, s') -> io_only m -> stdout_split_bytes s' = stdout_split_bytes s.
Proof. intros H Hm. apply Hm in H. unfold globals in H. congruence. Qed.

Lemma split_loop_window cc data : forall s s',
  length (stdout_split_bytes s) < Hexadecimal_Columns ->
  for_each data (split_body cc) s = (Ok tt, s') ->
  length (stdout_split_bytes s') < Hexadecimal_Columns.
Proof.
  induction data as [|x data IH]; intros s s' Hlen H.
  - by injection H as <-.
  - cbn [for_each] in H. apply bind_Ok in H as ([] & s1 & H1 & H).
    apply (IH s1 s'); [|done]. clear IH H.
    apply bind_Ok in H1 as ([] & s2 & [= <-] & H1).
    apply bind_Ok in H1 as (window & s3 & [= <- <-] & H1).
    change (stdout_split_bytes (set_stdout_split_bytes ?v s)) with v in H1.
    case_bool_decide as Hfull.
    + apply bind_Ok in H1 as ([] & s4 & _ & H1).
      apply bind_Ok in H1 as (n & s5 & _ & [= <-]).
      unfold Hexadecimal_Columns. cbn. lia.
    + injection H1 as <-. cbn.
      rewrite length_app in *. cbn in *. lia.
Qed.

(** X18: the pending window of the split views stays below a full row:
    if it holds fewer than sixteen bytes before a buffer is printed and
    the printing raises nothing, it holds fewer than sixteen bytes
    afterwards, in both views, with any color mapping and also when
    writes are short. *)
Theorem split_window_stays_below_row (cc : gmap N nat) (data : bytes)
    (partial_print : bool) (s s' : State) :
  length (stdout_split_bytes s) < Hexadecimal_Columns ->
  format_print_split cc data partial_print s = (Ok tt, s') ->
  length (stdout_split_bytes s') < Hexadecimal_Columns.
Proof.
  intros Hlen H. unfold format_print_split in H.
  apply bind_Ok in H as ([] & s1 & H1 & H).
  assert (Hw1 : stdout_split_bytes s1 = stdout_split_bytes s).
  { apply (io_only_window _ _ _ _ H1).
    destruct partial_print; [|apply io_only_ret].
    apply io_only_bind; [by intros ? ? ? [= <- <-]|]. intros pending.
    case_bool_decide; [|apply io_only_ret].
    apply io_only_bind; [apply io_only_fd_write|intros; apply io_only_ret]. }
  apply bind_Ok in H as ([] & s2 & H2 & H).
  apply split_loop_window in H2; [|by rewrite Hw1].
  assert (Hw2 : stdout_split_bytes s' = stdout_split_bytes s2); [|by rewrite Hw2].
  apply (io_only_window _ _ _ _ H).
  destruct partial_print; [|apply io_only_ret].
  apply io_only_bind; [by intros ? ? ? [= <- <-]|]. intros window.
  case_bool_decide; [apply io_only_split_print|apply io_only_ret].
Qed.

Lemma split_window_stays_below_row_witness :
  length (stdout_split_bytes
            (format_print_split ∅ (B "0123456789abcdefgh") true
               (initial_state [Accepts 1])).2) < Hexadecimal_Columns.
Proof.
  apply (split_window_stays_below_row ∅ (B "0123456789abcdefgh") true
           (initial_state [Accepts 1])).
  - unfold Hexadecimal_Columns. cbn. lia.
  - vm_compute. reflexivity.
Defined.

(** * The relay loop raises only when a system call fails *)

Lemma safe_ret {A} (a : A) : safe (ret a).
Proof. intros s Hs. by exists a, s. Qed.

Lemma safe_bind {A C} (m : M A) (k : A -> M C) :
  safe m -> (forall a, safe (k a)) -> safe (bind m k).
Proof.
  intros Hm Hk s Hs. unfold bind.
  destruct (Hm s Hs) as (a & s1 & -> & Hs1). by apply Hk.
Qed.

Lemma safe_get {A} (proj : State -> A) : safe (get proj).
Proof. intros s Hs. by exists (proj s), s. Qed.

Lemma safe_modify (f : State -> State) :
  (forall s, write_script (f s) = write_script s
             /\ txhex_state (f s) = txhex_state s) ->
  safe (modify f).
Proof.
  intros Hf s [Hw Htx]. exists tt, (f s). split; [done|].
  destruct (Hf s) as [Hw' Htx']. unfold loop_inv, no_write_failure.
  by rewrite Hw', Htx'.
Qed.

Lemma safe_fd_write f data : safe (fd_write f data).
Proof.
  intros s [Hw Htx]. unfold fd_write, loop_inv, no_write_failure in *.
  destruct (write_script s) as [|[n|msg] script] eqn:E.
  - do 2 eexists. split; [reflexivity|]. cbn. split; [|done]. by intros msg [].
  - do 2 eexists. split; [reflexivity|]. cbn. split; [|done].
    intros msg Hin. apply (Hw msg). by right.
  - destruct (Hw msg). by left.
Qed.

Lemma safe_color_coded cc x token :
  palette_ok cc -> safe (color_coded cc x token).
Proof. intros Hcc. rewrite color_coded_ok by done. apply safe_ret. Qed.

Lemma safe_for_each_in {A} (l : list A) (body : A -> M unit) :
  (forall x, In x l -> safe (body x)) -> safe (for_each l body).
Proof.
  induction l as [|x l IH]; intros Hb; [apply safe_ret|].
  cbn [for_each]. apply safe_bind; [apply Hb; by left|].
  intros _. apply IH. intros y Hy. apply Hb. by right.
Qed.

(** Discharges the safety of a computation built from the operations
    above. *)
Ltac safe_step cc_ok :=
  repeat first
    [ apply safe_ret
    | apply safe_fd_write
    | apply safe_get
    | apply safe_color_coded; exact cc_ok
    | apply safe_modify; by intros []
    | apply safe_bind; [|intros ?]
    | match goal with
      | |- safe (if ?c then _ else _) => destruct c
      end ].

Lemma safe_split_print cc byte_list :
  palette_ok cc -> safe (split_print cc byte_list).
Proof.
  intros Hcc. unfold split_print.
  apply safe_bind; [|intros _].
  { apply safe_for_each_in. intros i [_ Hi]%in_seq.
    destruct (lookup_lt_is_Some_2 byte_list i Hi) as [x ->].
    safe_step Hcc. }
  apply safe_bind; [safe_step Hcc|intros _].
  apply safe_bind; [safe_step Hcc|intros _].
  apply safe_bind; [|intros _; safe_step Hcc].
  apply safe_for_each_in. intros i [_ Hi]%in_seq.
  destruct (lookup_lt_is_Some_2 byte_list i Hi) as [x ->].
  safe_step Hcc.
Qed.

Lemma safe_format_print mode format_print cc data :
  format_print_table mode = Some format_print ->
  palette_ok cc ->
  safe (format_print cc data).
Proof.
  intros Hmode Hcc. unfold format_print_table in Hmode.
  repeat match type of Hmode with
         | (if ?c then _ else _) = _ => destruct c
         end; [injection Hmode as <-..|done].
  - unfold format_print_raw. case_bool_decide; [safe_step Hcc|].
    apply safe_for_each_in. intros x _. safe_step Hcc.
  - unfold format_print_split.
    apply safe_bind; [safe_step Hcc|intros _].
    apply safe_bind; [|intros _].
    + apply safe_for_each_in. intros x _.
      apply safe_bind; [safe_step Hcc|intros _].
      apply safe_bind; [safe_step Hcc|intros window].
      case_bool_decide; [|apply safe_ret].
      apply safe_bind; [by apply safe_split_print|intros _]. safe_step Hcc.
    + apply safe_bind; [safe_step Hcc|intros window].
      case_bool_decide; [by apply safe_split_print|apply safe_ret].
  - unfold format_print_split_full_lines, format_print_split.
    apply safe_bind; [safe_step Hcc|intros _].
    apply safe_bind; [|intros _; safe_step Hcc].
    apply safe_for_each_in. intros x _.
    apply safe_bind; [safe_step Hcc|intros _].
    apply safe_bind; [safe_step Hcc|intros window].
    case_bool_decide; [|apply safe_ret].
    apply safe_bind; [by apply safe_split_print|intros _]. safe_step Hcc.
  - unfold format_print_hexadecimal.
    apply safe_for_each_in. intros x _. safe_step Hcc.
  - unfold format_print_hexadecimal_newline, format_print_hexadecimal.
    apply safe_for_each_in. intros x _. safe_step Hcc.
Qed.

Lemma safe_run_format_tx_hex buff : safe (run_format_tx_hex buff).
Proof.
  intros s [Hw Htx]. unfold run_format_tx_hex. rewrite bind_get.
  destruct (format_tx_hex_total buff _ Htx) as (out & st' & -> & Hok).
  rewrite bind_modify. by exists out, (set_txhex_state st' s).
Qed.

Lemma safe_run_format_rx_nlsub buff pattern :
  In pattern rx_patterns -> buff <> [] ->
  safe (run_format_rx_nlsub buff pattern).
Proof.
  intros Hp Hb s [Hw Htx]. unfold run_format_rx_nlsub. rewrite bind_get.
  destruct (format_rx_nlsub_table pattern buff (rxnl_state s) Hp Hb)
    as (out & st' & ->).
  rewrite bind_modify. by exists out, (set_rxnl_state st' s).
Qed.

Lemma safe_stdin_block txnl_sub input_mode buff :
  safe (stdin_block txnl_sub input_mode (Ok buff)).
Proof.
  intros s Hs. unfold stdin_block.
  assert (Hread : try_except (fd_read (Ok buff))
                    (fun err => raise ("Error reading stdin: " ++ err ++ nl)%string) s
                  = (Ok buff, s)) by done.
  rewrite (bind_run _ _ _ _ _ Hread).
  case_bool_decide; [|by apply safe_ret].
  destruct (char_in _ buff); [by apply safe_ret|].
  set (buff' := match txnl_sub with
                | Some sub => format_tx_nlsub buff sub
                | None => buff
                end).
  assert (Hhex : safe (if String.eqb input_mode "hex"
                       then run_format_tx_hex buff' else ret buff')).
  { destruct (String.eqb _ _); [apply safe_run_format_tx_hex|apply safe_ret]. }
  destruct (Hhex s Hs) as (data & s1 & Hrun1 & Hs1).
  rewrite (bind_run _ _ _ _ _ Hrun1).
  destruct (safe_fd_write serial_fd data s1 Hs1) as (n & s2 & Hrun2 & Hs2).
  assert (Htry : try_except (fd_write serial_fd data)
                   (fun err => raise ("Error writing to serial port: "
                                      ++ err ++ nl)%string) s1
                 = (Ok n, s2)).
  { unfold try_except. by rewrite Hrun2. }
  rewrite (bind_run _ _ _ _ _ Htry). by apply safe_ret.
Qed.

Lemma safe_serial_block rxnl_sub format_print buff :
  (forall pattern, rxnl_sub = Some pattern -> In pattern rx_patterns) ->
  (forall data, safe (format_print data)) ->
  safe (serial_block rxnl_sub format_print (Ok buff)).
Proof.
  intros Hrx Hfp s Hs. unfold serial_block.
  assert (Hread : try_except (fd_read (Ok buff))
                    (fun err => raise ("Error reading serial port: "
                                       ++ err ++ nl)%string) s
                  = (Ok buff, s)) by done.
  rewrite (bind_run _ _ _ _ _ Hread).
  case_bool_decide as Hlen; [|by apply safe_ret].
  assert (Hsub : safe (match rxnl_sub with
                       | Some pattern => run_format_rx_nlsub buff pattern
                       | None => ret buff
                       end)).
  { destruct rxnl_sub as [pattern|]; [|apply safe_ret].
    apply safe_run_format_rx_nlsub; [by apply Hrx|].
    intros ->. cbn in Hlen. lia. }
  destruct (Hsub s Hs) as (data & s1 & Hrun1 & Hs1).
  rewrite (bind_run _ _ _ _ _ Hrun1).
  destruct (Hfp data s1 Hs1) as ([] & s2 & Hrun2 & Hs2).
  exists tt, s2. split; [|done]. unfold try_except. by rewrite Hrun2.
Qed.

Lemma safe_relay txnl_sub rxnl_sub input_mode format_print events :
  (forall pattern, rxnl_sub = Some pattern -> In pattern rx_patterns) ->
  (forall data, safe (format_print data)) ->
  Forall reads_ok events ->
  safe (relay txnl_sub rxnl_sub input_mode format_print events).
Proof.
  intros Hrx Hfp. induction 1 as [|ev events [Hin Hser] _ IH];
    [apply safe_ret|].
  cbn [relay]. apply safe_bind.
  - destruct (stdin_ready ev) as [[buff|msg]|];
      [apply safe_stdin_block|by destruct (Hin msg)|apply safe_ret].
  - intros [|]; [apply safe_ret|].
    apply safe_bind; [|by intros _].
    destruct (serial_ready ev) as [[buff|msg]|];
      [by apply safe_serial_block|by destruct (Hser msg)|apply safe_ret].
Qed.

(** X19: the relay loop raises only when a system call fails.  For
    options accepted by option processing and a color mapping whose slots
    are indices of the palette: as long as no read raises and no write
    raises (short writes and zero-length reads included), the loop raises
    nothing, neither from the transformers nor from the formatters,
    whatever arrives in whatever chunks; it is left by the quit character
    or keeps waiting. *)
Theorem relay_loop_raises_only_on_io_failure (opts : Options)
    (events : list select_event) (s : State) :
  valid_options opts ->
  palette_ok (Color_Chars opts) ->
  Forall reads_ok events ->
  no_write_failure s ->
  txhex_ok (txhex_state s) ->
  exists e s', read_write_loop opts events s = (Ok e, s').
Proof.
  intros Hv Hcc Hev Hw Htx.
  destruct (read_write_loop_relay opts Hv)
    as (tx & rx & fp & Htxs & Hrxs & Hfp & ->).
  destruct (safe_relay tx rx (input_mode (Format_Options opts))
              (fp (Color_Chars opts)) events) with (s := s)
    as (e & s' & Hrun & _); [| |done|done|by eauto].
  - intros pattern ->. by eapply RX_Newline_Sub_patterns.
  - intros data. by eapply safe_format_print.
Qed.

Lemma relay_loop_raises_only_on_io_failure_witness :
  exists e s',
    read_write_loop default_options
      [mkEvent (Some (Ok (B "ab"))) (Some (Ok [])); ev_stdin_a]
      (initial_state [Accepts 1])
    = (Ok e, s').
Proof.
  apply (relay_loop_raises_only_on_io_failure default_options
           [mkEvent (Some (Ok (B "ab"))) (Some (Ok [])); ev_stdin_a]
           (initial_state [Accepts 1])).
  - apply default_options_valid.
  - apply palette_ok_empty.
  - repeat constructor; discriminate.
  - intros msg [H|[]]. discriminate.
  - by left.
Defined.

(** ** Terminal attributes *)

Ltac bitwise :=
  apply Z.bits_inj'; intros n Hn;
  repeat first [ rewrite Z.lor_spec | rewrite Z.land_spec
               | rewrite Z.lnot_spec by assumption | rewrite Z.bits_0 ];
  repeat match goal with
         | |- context [Z.testbit ?a n] => destruct (Z.testbit a n)
         end;
  reflexivity.

Lemma clear_then_or a m e :
  Z.lor e m = m ->
  Z.land (Z.lor (Z.land a (Z.lnot m)) e) m = e
  /\ Z.land (Z.lor (Z.land a (Z.lnot m)) e) (Z.lnot m) = Z.land a (Z.lnot m)
  /\ Z.lor (Z.lor (Z.land a (Z.lnot m)) e) m = Z.lor a m.
Proof.
  intros He. split_and!.
  - rewrite <- He at 2. rewrite <- He at 1. bitwise.
  - rewrite <- He. bitwise.
  - rewrite <- He. bitwise.
Qed.

Lemma clear_bits a m :
  Z.land (Z.land a (Z.lnot m)) m = 0%Z
  /\ Z.land (Z.land a (Z.lnot m)) (Z.lnot m) = Z.land a (Z.lnot m)
  /\ Z.lor (Z.land a (Z.lnot m)) m = Z.lor a m.
Proof. split_and!; bitwise. Qed.

Lemma bits_already_set a m : Z.lor a m = a <-> Z.land a m = m.
Proof.
  split; intros H.
  - rewrite <- H at 1. bitwise.
  - rewrite <- H at 1. bitwise.
Qed.

Lemma echo_in_line_discipline termios :
  Z.lor (Tty.ECHO termios) (Tty.line_discipline_bits termios)
  = Tty.line_discipline_bits termios.
Proof. unfold Tty.line_discipline_bits. bitwise. Qed.

Lemma stdin_raw_open_Ok termios echo t fd t' :
  Tty.stdin_raw_open termios echo t = (Ok fd, t') ->
  let a := Tty.tty_attr t in
  let lflag' := Z.land (Tty.lflag a) (Z.lnot (Tty.line_discipline_bits termios)) in
  Tty.tty_attr t'
  = Tty.mkAttr (Z.land (Tty.iflag a) (Z.lnot (Tty.xon_xoff_bits termios)))
      (Tty.oflag a) (Tty.cflag a)
      (if echo then Z.lor lflag' (Tty.ECHO termios) else lflag')
      (Tty.ispeed a) (Tty.ospeed a) (Tty.cc a).
Proof.
  destruct t as [fd0 a script].
  unfold Tty.stdin_raw_open, Tty.tcgetattr, Tty.tcsetattr, Tty.syscall.
  destruct script as [|[e|] [|[e'|] script]]; cbn; try discriminate;
    intros [= <- <-]; by destruct echo.
Qed.

Lemma stdin_reset_Ok termios t u t' :
  Tty.stdin_reset termios t = (Ok u, t') ->
  let a := Tty.tty_attr t in
  Tty.tty_attr t'
  = Tty.mkAttr (Z.lor (Tty.iflag a) (Tty.xon_xoff_bits termios))
      (Tty.oflag a) (Tty.cflag a)
      (Z.lor (Tty.lflag a) (Tty.line_discipline_bits termios))
      (Tty.ispeed a) (Tty.ospeed a) (Tty.cc a).
Proof.
  destruct t as [fd0 a script].
  unfold Tty.stdin_reset, Tty.tcgetattr, Tty.tcsetattr, Tty.syscall.
  destruct script as [|[e|] [|[e'|] script]]; cbn; try discriminate;
    by intros [= <- <-].
Qed.

(** X20: what [stdin_raw_open] does to the terminal.  After a successful
    call, of the bits ICANON, ECHO, ECHOE and ISIG of the local flags
    exactly those of ECHO are set if echo was asked for and none
    otherwise, the bits IXON, IXOFF and IXANY of the input flags are
    clear, and every other bit and every other attribute is as it was,
    whatever the values of the constants are. *)
Theorem stdin_raw_open_clears_line_discipline (termios : Tty.termios_module)
    (echo : bool) (t t' : Tty.terminal) (fd : Z) :
  Tty.stdin_raw_open termios echo t = (Ok fd, t') ->
  let a := Tty.tty_attr t in
  let a' := Tty.tty_attr t' in
  let lbits := Tty.line_discipline_bits termios in
  let ibits := Tty.xon_xoff_bits termios in
  Z.land (Tty.lflag a') lbits = (if echo then Tty.ECHO termios else 0%Z)
  /\ Z.land (Tty.lflag a') (Z.lnot lbits) = Z.land (Tty.lflag a) (Z.lnot lbits)
  /\ Z.land (Tty.iflag a') ibits = 0%Z
  /\ Z.land (Tty.iflag a') (Z.lnot ibits) = Z.land (Tty.iflag a) (Z.lnot ibits)
  /\ Tty.oflag a' = Tty.oflag a /\ Tty.cflag a' = Tty.cflag a
  /\ Tty.ispeed a' = Tty.ispeed a /\ Tty.ospeed a' = Tty.ospeed a
  /\ Tty.cc a' = Tty.cc a /\ fd = 0%Z.
Proof.
  intros Hrun a a' lbits ibits. subst a'.
  assert (Hfd : fd = 0%Z).
  { revert Hrun. unfold Tty.stdin_raw_open.
    destruct (Tty.tcgetattr t) as [[?|?] ?]; [|discriminate].
    destruct (Tty.tcsetattr _ _) as [[?|?] ?]; [|discriminate].
    by intros [= <- _]. }
  rewrite (stdin_raw_open_Ok _ _ _ _ _ Hrun). cbn. fold a lbits ibits.
  destruct (clear_bits (Tty.iflag a) ibits) as (Hi1 & Hi2 & _).
  destruct (clear_bits (Tty.lflag a) lbits) as (Hl1 & Hl2 & _).
  destruct (clear_then_or (Tty.lflag a) lbits (Tty.ECHO termios)
              (echo_in_line_discipline termios)) as (He1 & He2 & _).
  by destruct echo.
Qed.

Lemma stdin_raw_open_clears_line_discipline_witness :
  Z.land
    (Tty.lflag (Tty.tty_attr (Tty.stdin_raw_open linux_termios true
                                cooked_terminal).2))
    (Tty.line_discipline_bits linux_termios)
  = Tty.ECHO linux_termios.
Proof.
  destruct (stdin_raw_open_clears_line_discipline linux_termios true
              cooked_terminal
              (Tty.stdin_raw_open linux_termios true cooked_terminal).2
              0%Z eq_refl) as [H _].
  exact H.
Defined.

(** X21: [stdin_reset] after [stdin_raw_open] does not restore the
    attributes that [stdin_raw_open] found; it sets ICANON, ECHO, ECHOE,
    ISIG and IXON, IXOFF, IXANY on top of them, with or without echo.
    The terminal is back in its first state exactly when all of these
    bits were set to begin with. *)
Theorem stdin_reset_after_raw_open (termios : Tty.termios_module)
    (echo : bool) (t t1 t2 : Tty.terminal) (fd : Z) (u : unit) :
  Tty.stdin_raw_open termios echo t = (Ok fd, t1) ->
  Tty.stdin_reset termios t1 = (Ok u, t2) ->
  let a := Tty.tty_attr t in
  let lbits := Tty.line_discipline_bits termios in
  let ibits := Tty.xon_xoff_bits termios in
  Tty.tty_attr t2
  = Tty.set_iflag (Z.lor (Tty.iflag a) ibits)
      (Tty.set_lflag (Z.lor (Tty.lflag a) lbits) a)
  /\ (Tty.tty_attr t2 = a
      <-> Z.land (Tty.lflag a) lbits = lbits
          /\ Z.land (Tty.iflag a) ibits = ibits).
Proof.
  intros Hopen Hreset a lbits ibits.
  assert (Hattr : Tty.tty_attr t2
                  = Tty.set_iflag (Z.lor (Tty.iflag a) ibits)
                      (Tty.set_lflag (Z.lor (Tty.lflag a) lbits) a)).
  { rewrite (stdin_reset_Ok _ _ _ _ Hreset).
    rewrite (stdin_raw_open_Ok _ _ _ _ _ Hopen). cbn. fold a lbits ibits.
    destruct (clear_bits (Tty.iflag a) ibits) as (_ & _ & ->).
    destruct (clear_bits (Tty.lflag a) lbits) as (_ & _ & Hl).
    destruct (clear_then_or (Tty.lflag a) lbits (Tty.ECHO termios)
                (echo_in_line_discipline termios)) as (_ & _ & He).
    unfold Tty.set_iflag, Tty.set_lflag. cbn.
    destruct echo; by rewrite ?Hl, ?He. }
  split; [done|]. rewrite Hattr.
  rewrite <- !bits_already_set. destruct a as [i o c l si so k].
  unfold Tty.set_iflag, Tty.set_lflag. cbn. split.
  - by intros [= -> ->].
  - by intros [-> ->].
Qed.

Lemma stdin_reset_after_raw_open_witness :
  Tty.iflag (Tty.tty_attr
               (Tty.stdin_reset linux_termios
                  (Tty.stdin_raw_open linux_termios false cooked_terminal).2).2)
  = (1282 + 4096 + 2048)%Z.
Proof.
  destruct (stdin_reset_after_raw_open linux_termios false cooked_terminal
              (Tty.stdin_raw_open linux_termios false cooked_terminal).2
              (Tty.stdin_reset linux_termios
                 (Tty.stdin_raw_open linux_termios false cooked_terminal).2).2
              0%Z tt eq_refl eq_refl) as [-> _].
  vm_compute. reflexivity.
Defined.

Ltac tty_cbn :=
  cbn -[Tty.termios_baudrates Tty.termios_databits Tty.termios_parity
        Tty.termios_stopbits Tty.termios_flowcontrol].

Lemma lookup_table `{Countable K} (l : list (K * Z)) (k : K) :
  is_Some ((list_to_map l : gmap K Z) !! k) <-> In k l.*1.
Proof.
  rewrite <- elem_of_dom, dom_list_to_map_L, elem_of_list_to_set.
  apply list_elem_of_In.
Qed.

Lemma serial_open_attributes_accepts termios b d s p f a :
  (exists a', Tty.serial_open_attributes termios b d s p f a = Ok a')
  <-> tty_parameters_ok d s p f.
Proof.
  unfold tty_parameters_ok, Tty.serial_open_attributes,
    Tty.termios_cflag_map_and_set.
  pose proof (lookup_table _ d : is_Some (Tty.termios_databits termios !! d) <-> _) as Hd.
  pose proof (lookup_table _ p : is_Some (Tty.termios_parity termios !! p) <-> _) as Hp.
  pose proof (lookup_table _ s : is_Some (Tty.termios_stopbits termios !! s) <-> _) as Hs.
  pose proof (lookup_table _ f : is_Some (Tty.termios_flowcontrol termios !! f) <-> _) as Hf.
  cbn [fmap list_fmap fst] in Hd, Hp, Hs, Hf.
  rewrite <- Hd, <- Hp, <- Hs, <- Hf.
  destruct (Tty.termios_databits termios !! d);
    [|tty_cbn; split; [by intros [? ?]|by intros ([? ?] & _)]].
  destruct (Tty.termios_parity termios !! p);
    [|tty_cbn; split; [by intros [? ?]|by intros (_ & [? ?] & _)]].
  destruct (Tty.termios_stopbits termios !! s);
    [|tty_cbn; split; [by intros [? ?]|by intros (_ & _ & [? ?] & _)]].
  destruct (Tty.termios_flowcontrol termios !! f);
    [|tty_cbn; split; [by intros [? ?]|by intros (_ & _ & _ & [? ?])]].
  tty_cbn. split; [intros _; by split_and!|intros _; by eexists].
Qed.

Lemma serial_open_attributes_result termios b d s p f a a' :
  Tty.serial_open_attributes termios b d s p f a = Ok a' ->
  Tty.oflag a' = 0%Z /\ Tty.lflag a' = 0%Z
  /\ Tty.ispeed a' = Tty.ospeed a' /\ Tty.cc a' = Tty.cc a
  /\ Tty.serial_open_attributes termios b d s p f
       (Tty.mkAttr 0 0 0 0 0 0 (Tty.cc a)) = Ok a'.
Proof.
  unfold Tty.serial_open_attributes, Tty.termios_cflag_map_and_set.
  destruct (Tty.termios_baudrates termios !! b),
    (Tty.termios_databits termios !! d); tty_cbn; try discriminate;
    (destruct (Tty.termios_parity termios !! p); tty_cbn; [|discriminate]);
    (destruct (Tty.termios_stopbits termios !! s); tty_cbn; [|discriminate]);
    (destruct (Tty.termios_flowcontrol termios !! f); tty_cbn; [|discriminate]);
    destruct (negb _), (String.eqb f _); by intros [= <-].
Qed.

Lemma serial_open_Ok termios path b d s p f t fd t' :
  Tty.serial_open termios path b d s p f t = (Ok fd, t') ->
  fd = Tty.tty_fd t
  /\ Tty.serial_open_attributes termios b d s p f (Tty.tty_attr t)
     = Ok (Tty.tty_attr t').
Proof.
  destruct t as [fd0 a script].
  unfold Tty.serial_open, Tty.os_open, Tty.tcgetattr, Tty.tcsetattr,
    Tty.syscall.
  destruct script as [|[e|] [|[e'|] [|[e''|] script]]];
    cbn -[Tty.serial_open_attributes]; try discriminate;
    destruct (Tty.serial_open_attributes _ _ _ _ _ _ _);
    cbn; try discriminate; by intros [= <- <-].
Qed.

Lemma serial_open_run termios path b d s p f t :
  calls_succeed t ->
  exists script,
    Tty.serial_open termios path b d s p f t
    = match Tty.serial_open_attributes termios b d s p f (Tty.tty_attr t) with
      | Ok a' => (Ok (Tty.tty_fd t), Tty.mkTerminal (Tty.tty_fd t) a' script)
      | Raise err =>
          (Raise err, Tty.mkTerminal (Tty.tty_fd t) (Tty.tty_attr t) script)
      end.
Proof.
  destruct t as [fd0 a script]. unfold calls_succeed. cbn. intros Hs.
  unfold Tty.serial_open, Tty.os_open, Tty.tcgetattr, Tty.tcsetattr,
    Tty.syscall.
  destruct script as [|o1 [|o2 [|o3 script]]];
    repeat match goal with
           | H : Forall _ (_ :: _) |- _ => apply Forall_cons in H as [-> H]
           end;
    cbn -[Tty.serial_open_attributes];
    destruct (Tty.serial_open_attributes _ _ _ _ _ _ _); by eexists.
Qed.

(** X22: which parameters [serial_open] takes.  Whatever the system
    calls do and whatever the baudrate is, the call returns a descriptor
    only when the data bits are 5, 6, 7 or 8, the parity is none, even or
    odd, the stop bits are 1 or 2 and the flow control is none, rtscts or
    xonxoff.  For such parameters and a baudrate of the table it returns
    the descriptor of the device whenever no system call fails.  (A
    baudrate outside the table is handed on to [tcsetattr] as it is;
    nothing is said here about what [tcsetattr] makes of it.) *)
Theorem serial_open_validates_parameters (termios : Tty.termios_module)
    (device_path : string) (baudrate databits stopbits : Z)
    (parity flow_control : string) (t : Tty.terminal) :
  (forall fd t',
     Tty.serial_open termios device_path baudrate databits stopbits
       parity flow_control t = (Ok fd, t') ->
     tty_parameters_ok databits stopbits parity flow_control)
  /\ (calls_succeed t ->
      is_Some (Tty.termios_baudrates termios !! baudrate) ->
      tty_parameters_ok databits stopbits parity flow_control ->
      exists t', Tty.serial_open termios device_path baudrate databits
                   stopbits parity flow_control t
                 = (Ok (Tty.tty_fd t), t')).
Proof.
  split.
  - intros fd t' [_ Hattr]%serial_open_Ok.
    apply (serial_open_attributes_accepts termios baudrate databits
             stopbits parity flow_control (Tty.tty_attr t)).
    by eexists.
  - intros Hs _ Hok.
    destruct (serial_open_run termios device_path baudrate databits stopbits
                parity flow_control t Hs) as [script ->].
    apply (serial_open_attributes_accepts termios baudrate databits
             stopbits parity flow_control (Tty.tty_attr t)) in Hok
      as [a' ->].
    by eexists.
Qed.

Lemma serial_open_validates_parameters_witness :
  exists t', Tty.serial_open linux_termios "/dev/ttyUSB0" 115200 8 1 "none"
               "none" cooked_terminal = (Ok 0%Z, t').
Proof.
  apply (proj2 (serial_open_validates_parameters linux_termios "/dev/ttyUSB0"
                  115200 8 1 "none" "none" cooked_terminal)).
  - constructor.
  - vm_compute. by eexists.
  - unfold tty_parameters_ok. cbn. tauto.
Defined.

Lemma serial_open_attributes_independent termios b d s p f a1 a2 a1' a2' :
  Tty.serial_open_attributes termios b d s p f a1 = Ok a1' ->
  Tty.serial_open_attributes termios b d s p f a2 = Ok a2' ->
  Tty.iflag a1' = Tty.iflag a2' /\ Tty.cflag a1' = Tty.cflag a2'
  /\ Tty.ispeed a1' = Tty.ispeed a2'.
Proof.
  unfold Tty.serial_open_attributes, Tty.termios_cflag_map_and_set.
  destruct (Tty.termios_baudrates termios !! b),
    (Tty.termios_databits termios !! d); tty_cbn; try discriminate;
    (destruct (Tty.termios_parity termios !! p); tty_cbn; [|discriminate]);
    (destruct (Tty.termios_stopbits termios !! s); tty_cbn; [|discriminate]);
    (destruct (Tty.termios_flowcontrol termios !! f); tty_cbn; [|discriminate]);
    destruct (negb _), (String.eqb f _); by intros [= <-] [= <-].
Qed.

(** X23: [serial_open] configures the port from scratch.  After a
    successful call the output and local flags are 0, input and output
    speed are equal, the control characters are the ones found, and the
    input flags, control flags and speeds are the same whatever the
    attributes of the port were before: nothing of an earlier
    configuration survives but the control characters. *)
Theorem serial_open_overrides_previous_attributes
    (termios : Tty.termios_module) (device_path : string)
    (baudrate databits stopbits : Z) (parity flow_control : string)
    (t1 t2 t1' t2' : Tty.terminal) (fd1 fd2 : Z) :
  Tty.serial_open termios device_path baudrate databits stopbits parity
    flow_control t1 = (Ok fd1, t1') ->
  Tty.serial_open termios device_path baudrate databits stopbits parity
    flow_control t2 = (Ok fd2, t2') ->
  let a1 := Tty.tty_attr t1' in
  let a2 := Tty.tty_attr t2' in
  Tty.oflag a1 = 0%Z /\ Tty.lflag a1 = 0%Z
  /\ Tty.ispeed a1 = Tty.ospeed a1
  /\ Tty.cc a1 = Tty.cc (Tty.tty_attr t1)
  /\ Tty.iflag a1 = Tty.iflag a2 /\ Tty.cflag a1 = Tty.cflag a2
  /\ Tty.ispeed a1 = Tty.ispeed a2.
Proof.
  intros [_ H1]%serial_open_Ok [_ H2]%serial_open_Ok a1 a2. subst a1 a2.
  destruct (serial_open_attributes_independent _ _ _ _ _ _ _ _ _ _ H1 H2)
    as (Hi & Hc & Hsp).
  apply serial_open_attributes_result in H1 as (Ho & Hl & Hs & Hcc & _).
  by split_and!.
Qed.

Lemma serial_open_overrides_previous_attributes_witness :
  Tty.lflag (Tty.tty_attr
               (Tty.serial_open linux_termios "/dev/ttyUSB0" 115200 8 1
                  "none" "none" cooked_terminal).2) = 0%Z.
Proof.
  destruct (serial_open_overrides_previous_attributes linux_termios
              "/dev/ttyUSB0" 115200 8 1 "none" "none"
              cooked_terminal cooked_terminal
              (Tty.serial_open linux_termios "/dev/ttyUSB0" 115200 8 1
                 "none" "none" cooked_terminal).2
              (Tty.serial_open linux_termios "/dev/ttyUSB0" 115200 8 1
                 "none" "none" cooked_terminal).2
              0%Z 0%Z) as (_ & H & _); [by vm_compute..|exact H].
Defined.

(** X24: setting up a terminal is all or nothing.  Whenever
    [serial_open], [stdin_raw_open] or [stdin_reset] raises, for a failing
    system call or for a parameter outside the tables, the attributes of
    the terminal are untouched: each function validates before its only
    [tcsetattr]. *)
Theorem terminal_setup_all_or_nothing (termios : Tty.termios_module)
    (device_path : string) (baudrate databits stopbits : Z)
    (parity flow_control : string) (echo : bool)
    (t t' : Tty.terminal) (msg : string) :
  Tty.serial_open termios device_path baudrate databits stopbits parity
    flow_control t = (Raise msg, t')
  \/ Tty.stdin_raw_open termios echo t = (Raise msg, t')
  \/ Tty.stdin_reset termios t = (Raise msg, t') ->
  Tty.tty_attr t' = Tty.tty_attr t.
Proof.
  destruct t as [fd0 a script].
  unfold Tty.serial_open, Tty.stdin_raw_open, Tty.stdin_reset, Tty.os_open,
    Tty.tcgetattr, Tty.tcsetattr, Tty.syscall.
  intros [H|[H|H]]; revert H.
  - destruct script as [|[e|] [|[e'|] [|[e''|] script]]];
      cbn -[Tty.serial_open_attributes]; try discriminate;
      try (by intros [= _ <-]);
      destruct (Tty.serial_open_attributes _ _ _ _ _ _ _);
      cbn; try discriminate; by intros [= _ <-].
  - destruct script as [|[e|] [|[e'|] script]]; cbn; try discriminate;
      by intros [= _ <-].
  - destruct script as [|[e|] [|[e'|] script]]; cbn; try discriminate;
      by intros [= _ <-].
Qed.

Lemma terminal_setup_all_or_nothing_witness :
  Tty.tty_attr
    (Tty.serial_open linux_termios "/dev/ttyUSB0" 115200 9 1 "none" "none"
       cooked_terminal).2
  = Tty.tty_attr cooked_terminal.
Proof.
  apply (terminal_setup_all_or_nothing linux_termios "/dev/ttyUSB0" 115200
           9 1 "none" "none" false cooked_terminal _
           "Invalid tty databits!").
  left. by vm_compute.
Defined.

(** ** Directions of the relay *)

Lemma writes_within_quiet {A} allowed (m : M A) :
  (forall s r s', m s = (r, s') ->
     write_calls s' = write_calls s /\ serial_sink s' = serial_sink s
     /\ console_sink s' = console_sink s) ->
  writes_within allowed m.
Proof.
  intros Hm s r s' (Hc & Hs & Ho)%Hm. split_and!; [|done..].
  exists []. split; [|constructor]. unfold new_calls. by rewrite app_nil_r.
Qed.

Lemma writes_within_ret {A} allowed (a : A) : writes_within allowed (ret a).
Proof. apply writes_within_quiet. by intros s r s' [= <- <-]. Qed.

Lemma writes_within_raise {A} allowed msg :
  writes_within allowed (@raise A msg).
Proof. apply writes_within_quiet. by intros s r s' [= <- <-]. Qed.

Lemma writes_within_get {A} allowed (proj : State -> A) :
  writes_within allowed (get proj).
Proof. apply writes_within_quiet. by intros s r s' [= <- <-]. Qed.

Lemma writes_within_modify allowed (f : State -> State) :
  (forall s, write_calls (f s) = write_calls s
             /\ serial_sink (f s) = serial_sink s
             /\ console_sink (f s) = console_sink s) ->
  writes_within allowed (modify f).
Proof.
  intros Hf. apply writes_within_quiet. intros s r s' [= <- <-]. apply Hf.
Qed.

Lemma writes_within_bind {A C} allowed (m : M A) (k : A -> M C) :
  writes_within allowed m -> (forall a, writes_within allowed (k a)) ->
  writes_within allowed (bind m k).
Proof.
  intros Hm Hk s r s'. unfold bind.
  destruct (m s) as [[a|msg] s1] eqn:E.
  - intros H. apply Hm in E as ((c1 & Hc1 & Hf1) & Hs1 & Ho1).
    apply Hk in H as ((c2 & Hc2 & Hf2) & Hs2 & Ho2). split_and!.
    + exists (c1 ++ c2). split; [|by apply Forall_app].
      unfold new_calls in *. by rewrite Hc2, Hc1, app_assoc.
    + intros Hn. by rewrite Hs2, Hs1.
    + intros Hn. by rewrite Ho2, Ho1.
  - intros [= <- <-]. by apply Hm in E.
Qed.

Lemma writes_within_try_except {A} allowed (m : M A) (h : string -> M A) :
  writes_within allowed m -> (forall msg, writes_within allowed (h msg)) ->
  writes_within allowed (try_except m h).
Proof.
  intros Hm Hh s r s'. unfold try_except.
  destruct (m s) as [[a|msg] s1] eqn:E.
  - intros [= <- <-]. by apply Hm in E.
  - intros H. apply Hm in E as ((c1 & Hc1 & Hf1) & Hs1 & Ho1).
    apply Hh in H as ((c2 & Hc2 & Hf2) & Hs2 & Ho2). split_and!.
    + exists (c1 ++ c2). split; [|by apply Forall_app].
      unfold new_calls in *. by rewrite Hc2, Hc1, app_assoc.
    + intros Hn. by rewrite Hs2, Hs1.
    + intros Hn. by rewrite Ho2, Ho1.
Qed.

Lemma writes_within_fd_write (allowed : fd -> Prop) f data :
  allowed f -> writes_within allowed (fd_write f data).
Proof.
  intros Hf s r s'. unfold fd_write.
  destruct (write_script s) as [|[n|msg] script]; intros [= <- <-].
  all: split_and!; [exists [(f, data)]; split; [done|by constructor]|..].
  all: intros Hn; destruct f; done.
Qed.

Lemma writes_within_color_coded allowed cc x token :
  writes_within allowed (color_coded cc x token).
Proof.
  unfold color_coded.
  destruct (cc !! ord x) as [slot|]; [|apply writes_within_ret].
  destruct (Color_Codes !! slot);
    [apply writes_within_ret|apply writes_within_raise].
Qed.

Lemma writes_within_for_each {A} allowed (l : list A) (body : A -> M unit) :
  (forall x, writes_within allowed (body x)) ->
  writes_within allowed (for_each l body).
Proof.
  intros Hb. induction l as [|x l IH]; [apply writes_within_ret|].
  cbn [for_each]. apply writes_within_bind; [apply Hb|by intros _].
Qed.

(** Discharges [writes_within] for a computation built from the
    operations above whose writes all go to an allowed descriptor. *)
Ltac writes_step Hallowed :=
  repeat first
    [ apply writes_within_ret
    | apply writes_within_raise
    | apply writes_within_get
    | apply writes_within_fd_write; exact Hallowed
    | apply writes_within_color_coded
    | apply writes_within_modify; by intros []
    | apply writes_within_bind; [|intros ?]
    | apply writes_within_for_each; intros ?
    | match goal with
      | |- writes_within _ (if ?c then _ else _) => destruct c
      | |- writes_within _ (match ?x with _ => _ end) => destruct x
      end ].

Lemma writes_within_format_print (allowed : fd -> Prop) mode format_print
    cc data :
  allowed stdout_fd ->
  format_print_table mode = Some format_print ->
  writes_within allowed (format_print cc data).
Proof.
  intros Ha Hmode. unfold format_print_table in Hmode.
  repeat match type of Hmode with
         | (if ?c then _ else _) = _ => destruct c
         end; [injection Hmode as <-..|done].
  all: unfold format_print_raw, format_print_split_full_lines,
         format_print_hexadecimal_newline, format_print_split,
         format_print_hexadecimal, split_print.
  all: writes_step Ha.
Qed.

Lemma writes_within_stdin_block (allowed : fd -> Prop) txnl_sub input_mode r :
  allowed serial_fd ->
  writes_within allowed (stdin_block txnl_sub input_mode r).
Proof.
  intros Ha. unfold stdin_block, run_format_tx_hex, fd_read.
  apply writes_within_bind; [|intros buff].
  { apply writes_within_try_except; [|intros ?; apply writes_within_raise].
    destruct r; [apply writes_within_ret|apply writes_within_raise]. }
  case_bool_decide; [|apply writes_within_ret].
  destruct (char_in _ buff); [apply writes_within_ret|].
  apply writes_within_bind; [writes_step Ha|intros data].
  apply writes_within_bind; [|intros ?; apply writes_within_ret].
  apply writes_within_try_except; [|intros ?; apply writes_within_raise].
  by apply writes_within_fd_write.
Qed.

Lemma writes_within_serial_block (allowed : fd -> Prop) rxnl_sub mode
    format_print cc r :
  allowed stdout_fd ->
  format_print_table mode = Some format_print ->
  writes_within allowed (serial_block rxnl_sub (format_print cc) r).
Proof.
  intros Ha Hmode. unfold serial_block, run_format_rx_nlsub, fd_read.
  apply writes_within_bind; [|intros buff].
  { apply writes_within_try_except; [|intros ?; apply writes_within_raise].
    destruct r; [apply writes_within_ret|apply writes_within_raise]. }
  case_bool_decide; [|apply writes_within_ret].
  apply writes_within_bind; [writes_step Ha|intros data].
  apply writes_within_try_except; [|intros ?; apply writes_within_raise].
  by eapply writes_within_format_print.
Qed.

Lemma writes_within_relay (allowed : fd -> Prop) txnl_sub rxnl_sub input_mode
    mode format_print cc events :
  format_print_table mode = Some format_print ->
  Forall (fun ev => (stdin_silent ev \/ allowed serial_fd)
                    /\ (serial_silent ev \/ allowed stdout_fd)) events ->
  writes_within allowed
    (relay txnl_sub rxnl_sub input_mode (format_print cc) events).
Proof.
  intros Hmode. induction 1 as [|ev events [Hin Hser] _ IH];
    [apply writes_within_ret|].
  cbn [relay]. apply writes_within_bind; [|intros [|]].
  - destruct Hin as [Hin|Hin].
    + unfold stdin_silent in Hin. rewrite Hin. apply writes_within_ret.
    + destruct (stdin_ready ev);
        [by apply writes_within_stdin_block|apply writes_within_ret].
  - apply writes_within_ret.
  - apply writes_within_bind; [|by intros _].
    destruct Hser as [Hser|Hser].
    + unfold serial_silent in Hser. rewrite Hser. apply writes_within_ret.
    + destruct (serial_ready ev);
        [by eapply writes_within_serial_block|apply writes_within_ret].
Qed.

Lemma writes_within_read_write_loop (allowed : fd -> Prop) opts events :
  Forall (fun ev => (stdin_silent ev \/ allowed serial_fd)
                    /\ (serial_silent ev \/ allowed stdout_fd)) events ->
  writes_within allowed (read_write_loop opts events).
Proof.
  intros Hev. unfold read_write_loop.
  destruct (TX_Newline_Sub _); [|apply writes_within_raise].
  destruct (RX_Newline_Sub _); [|apply writes_within_raise].
  destruct (format_print_table _) eqn:Hmode; [|apply writes_within_raise].
  by eapply writes_within_relay.
Qed.

(** X25: the relay keeps its two directions apart.  Whatever the options
    and however the loop ends, it never writes to stdin; as long as
    nothing arrives from stdin, every write goes to stdout and the serial
    port receives nothing; as long as nothing arrives from the serial
    port, every write goes to the serial port and the console receives
    nothing (the program itself never echoes what is typed). *)
Theorem relay_keeps_directions_apart (opts : Options)
    (events : list select_event) (s s' : State) (r : result loop_exit) :
  read_write_loop opts events s = (r, s') ->
  exists calls,
    new_calls s s' calls
    /\ Forall (fun call => call.1 <> stdin_fd) calls
    /\ (Forall stdin_silent events ->
        Forall (fun call => call.1 = stdout_fd) calls
        /\ serial_sink s' = serial_sink s)
    /\ (Forall serial_silent events ->
        Forall (fun call => call.1 = serial_fd) calls
        /\ console_sink s' = console_sink s).
Proof.
  intros Hrun.
  destruct (writes_within_read_write_loop (fun f => f <> stdin_fd) opts
              events) with (s := s) (r := r) (s' := s')
    as ((calls & Hcalls & Hall) & _); [|done|].
  { apply Forall_forall. intros ev _. split; by right. }
  exists calls. split_and!; [done..| |].
  - intros Hev.
    destruct (writes_within_read_write_loop (fun f => f = stdout_fd) opts
                events) with (s := s) (r := r) (s' := s')
      as ((calls' & Hcalls' & Hall') & Hsink & _); [|done|].
    { eapply Forall_impl; [exact Hev|]. intros ev Hq. split; [by left|by right]. }
    unfold new_calls in *. rewrite Hcalls in Hcalls'.
    apply app_inv_head in Hcalls' as ->. split; [done|]. by apply Hsink.
  - intros Hev.
    destruct (writes_within_read_write_loop (fun f => f = serial_fd) opts
                events) with (s := s) (r := r) (s' := s')
      as ((calls' & Hcalls' & Hall') & _ & Hsink); [|done|].
    { eapply Forall_impl; [exact Hev|]. intros ev Hq. split; [by right|by left]. }
    unfold new_calls in *. rewrite Hcalls in Hcalls'.
    apply app_inv_head in Hcalls' as ->. split; [done|]. by apply Hsink.
Qed.

Lemma relay_keeps_directions_apart_witness :
  exists calls,
    new_calls (initial_state [])
      (read_write_loop default_options [ev_stdin_a; ev_both_two_bytes]
         (initial_state [])).2 calls
    /\ Forall (fun call => call.1 <> stdin_fd) calls.
Proof.
  destruct (relay_keeps_directions_apart default_options
              [ev_stdin_a; ev_both_two_bytes] (initial_state [])
              (read_write_loop default_options [ev_stdin_a; ev_both_two_bytes]
                 (initial_state [])).2
              (read_write_loop default_options [ev_stdin_a; ev_both_two_bytes]
                 (initial_state [])).1)
    as (calls & Hcalls & Hall & _); [by destruct (read_write_loop _ _ _)|].
  by exists calls.
Defined.

(** ** Command-line options *)

Lemma color_loop_slots n items : forall cc cc',
  color_loop items cc = inl cc' ->
  size cc + length items <= n ->
  (forall k slot, cc !! k = Some slot -> slot < n) ->
  forall k slot, cc' !! k = Some slot -> slot < n.
Proof.
  assert (Hins : forall (cc : gmap N nat) key,
            size cc < n ->
            (forall k slot, cc !! k = Some slot -> slot < n) ->
            size (<[key := size cc]> cc) <= size cc + 1
            /\ forall k slot,
                 <[key := size cc]> cc !! k = Some slot -> slot < n).
  { intros cc key Hsz Hcc. split.
    - rewrite map_size_insert. destruct (cc !! key); cbn; lia.
    - intros k slot [[_ <-]|[_ H]]%lookup_insert_Some; [done|by eapply Hcc]. }
  induction items as [|c items IH]; intros cc cc'; cbn [color_loop length].
  - by intros [= <-].
  - intros Hrun Hsz Hcc.
    destruct (bool_decide (length c = 1)).
    { destruct c as [|x c]; [by injection Hrun as <-|].
      destruct (Hins cc (ord x)) as [Hsz' Hcc']; [lia|done|].
      eapply IH; [exact Hrun|lia|exact Hcc']. }
    destruct (_ && _); [|done].
    destruct (py_int c 16) as [c_int|]; [|done].
    destruct (Hins cc (Z.to_N c_int)) as [Hsz' Hcc']; [lia|done|].
    eapply IH; [exact Hrun|lia|exact Hcc'].
Qed.

Lemma color_option_fits_palette opt_arg o o' :
  color_option opt_arg o = Continue o' ->
  Color_Chars o = ∅ ->
  palette_ok (Color_Chars o').
Proof.
  unfold color_option. case_bool_decide as Hlen; [done|].
  destruct (color_loop _ _) as [cc|[trace code]] eqn:Hloop; [|done].
  intros [= <-] Hempty. cbn. intros k slot.
  eapply color_loop_slots; [exact Hloop| |].
  - rewrite Hempty, map_size_empty. lia.
  - intros k' slot'. by rewrite Hempty, lookup_empty.
Qed.

Lemma process_option_keeps_colors opt_c opt_arg o o' :
  is_opt opt_c "-c" "--color" = false ->
  process_option opt_c opt_arg o = Continue o' ->
  Color_Chars o' = Color_Chars o.
Proof.
  intros Hc. unfold process_option. rewrite Hc.
  repeat match goal with
         | |- (if ?c then _ else _) = _ -> _ => destruct c eqn:?
         end;
    unfold int_option, choice_option;
    repeat match goal with
           | |- context [match ?x with _ => _ end] => destruct x eqn:?
           end;
    by intros [= <-].
Qed.

Lemma process_option_color opt_c opt_arg o :
  is_opt opt_c "-c" "--color" = true ->
  process_option opt_c opt_arg o = color_option opt_arg o.
Proof.
  unfold is_opt. intros [->%String.eqb_eq| ->%String.eqb_eq]%orb_true_iff;
    reflexivity.
Qed.

Lemma process_options_keeps_colors options : forall o o',
  filter is_color_option options = [] ->
  process_options options o = Continue o' ->
  Color_Chars o' = Color_Chars o.
Proof.
  induction options as [|[opt_c opt_arg] options IH]; intros o o' Hnone; cbn.
  - by intros [= <-].
  - destruct (is_opt opt_c "-c" "--color") eqn:Hc.
    + rewrite filter_cons_True in Hnone; [done|].
      unfold is_color_option. cbn [fst]. by rewrite Hc.
    + rewrite filter_cons_False in Hnone
        by (unfold is_color_option; cbn [fst]; rewrite Hc; exact (fun H => H)).
      destruct (process_option opt_c opt_arg o) as [o1|] eqn:E; [|done].
      intros Hrun. rewrite (IH _ _ Hnone Hrun).
      by eapply process_option_keeps_colors.
Qed.

(** X26: one color option cannot overflow the palette.  When the command
    line holds at most one [-c] / [--color] option and option processing
    goes through, every slot in [Color_Chars] is an index of
    [Color_Codes]: the check of the option on its own is enough then,
    also with repeated characters in its list. *)
Theorem single_color_option_fits_palette (options : list (string * string))
    (o : Options) :
  length (filter is_color_option options) <= 1 ->
  process_options options default_options = Continue o ->
  palette_ok (Color_Chars o).
Proof.
  assert (Hgen : forall o0 o,
            Color_Chars o0 = ∅ ->
            length (filter is_color_option options) <= 1 ->
            process_options options o0 = Continue o ->
            palette_ok (Color_Chars o)); [|by apply Hgen].
  clear o. induction options as [|[opt_c opt_arg] options IH];
    intros o0 o Hempty Hone; cbn [process_options].
  - intros [= <-]. rewrite Hempty. apply palette_ok_empty.
  - destruct (process_option opt_c opt_arg o0) as [o1|] eqn:E; [|done].
    destruct (is_opt opt_c "-c" "--color") eqn:Hc.
    + rewrite filter_cons_True in Hone
        by (unfold is_color_option; cbn [fst]; by rewrite Hc).
      cbn [length] in Hone.
      rewrite process_option_color in E by done.
      apply color_option_fits_palette in E; [|done].
      intros Hrun.
      rewrite (process_options_keeps_colors options o1 o); [done| |done].
      apply length_zero_iff_nil. lia.
    + rewrite filter_cons_False in Hone
        by (unfold is_color_option; cbn [fst]; rewrite Hc; exact (fun H => H)).
      apply IH; [|done].
      by rewrite (process_option_keeps_colors _ _ _ _ Hc E).
Qed.

Lemma single_color_option_fits_palette_witness :
  exists o,
    process_options [("-b", "9600"); ("--color", "a,0x0a,a,,b,c,d,e")]%string
      default_options = Continue o
    /\ palette_ok (Color_Chars o).
Proof.
  eexists. split; [by vm_compute|].
  apply (single_color_option_fits_palette
           [("-b", "9600"); ("--color", "a,0x0a,a,,b,c,d,e")]%string).
  - vm_compute. lia.
  - by vm_compute.
Defined.

(** ** Exit status *)

Lemma color_loop_exit items : forall cc trace code,
  color_loop items cc = inr (trace, code) -> code = (-1)%Z.
Proof.
  induction items as [|c items IH]; intros cc trace code; cbn [color_loop];
    [done|].
  destruct (bool_decide (length c = 1)).
  { destruct c as [|x c]; [done|]. apply IH. }
  destruct (_ && _); [|by intros [= _ <-]].
  destruct (py_int c 16); [apply IH|by intros [= _ <-]].
Qed.

Lemma process_option_exit opt_c opt_arg o trace code :
  process_option opt_c opt_arg o = Exit trace code ->
  code = (-1)%Z
  \/ code = 0%Z /\ (trace = [PrintUsage] \/ trace = [PrintVersion]).
Proof.
  unfold process_option.
  repeat match goal with
         | |- (if ?c then _ else _) = _ -> _ => destruct c eqn:?
         end;
    unfold int_option, choice_option, color_option;
    repeat match goal with
           | |- context [match ?x with _ => _ end] => destruct x eqn:?
           end;
    intros [= <- <-]; try by left.
  - left. by eapply color_loop_exit.
  - right. split; [done|by left].
  - right. split; [done|by right].
Qed.

Lemma process_options_exit options : forall o trace code,
  process_options options o = Exit trace code ->
  code = (-1)%Z
  \/ code = 0%Z /\ (trace = [PrintUsage] \/ trace = [PrintVersion]).
Proof.
  induction options as [|[opt_c opt_arg] options IH]; intros o trace code;
    cbn [process_options]; [done|].
  destruct (process_option opt_c opt_arg o) as [o1|trace1 code1] eqn:E;
    [apply IH|].
  intros [= <- <-]. by eapply process_option_exit.
Qed.

(** X27: whatever is reported on stderr ends the process with status -1.
    Over the whole of [__main__] (option processing, opening the
    descriptors, the relay loop, resetting the console and closing the
    port): if anything is written to stderr, the process has exited and
    the argument of [sys.exit] was -1. *)
Theorem stderr_message_exits_with_failure (env : Env) (msg : string) :
  In (StderrWrite msg) (main env).1 ->
  (main env).2 = Some (-1)%Z.
Proof.
  unfold main. destruct (getopt env) as [[options args]|err]; [|done].
  destruct (process_options options default_options) as [o|trace code] eqn:E.
  - destruct args as [|device args]; [done|].
    unfold session.
    destruct (serial_open env); [|done].
    destruct (stdin_raw_open env); [|done].
    destruct (stdout_raw_open env); [|done].
    destruct (read_write_loop _ _ _) as [r final].
    unfold after_loop. destruct r as [[|]|err].
    + destruct (stdin_reset env); [|done].
      destruct (serial_close env); [|done].
      cbn. intros H. decompose [or] H; done.
    + cbn. intros H. decompose [or] H; done.
    + done.
  - cbn. intros Hin.
    destruct (process_options_exit _ _ _ _ E) as [->|[-> [->| ->]]];
      [done|..]; cbn in Hin; decompose [or] Hin; done.
Qed.

Lemma stderr_message_exits_with_failure_witness :
  (main env_read_error).2 = Some (-1)%Z.
Proof.
  apply (stderr_message_exits_with_failure env_read_error
           ("Error reading serial port: Input/output error" ++ nl ++ nl)%string).
  vm_compute. repeat first [left; reflexivity|right].
Defined.
